(** * Statistics ranking and tag cache of the isupipe web application

    A shallow embedding of [webapp/go/stats_handler.go] (the ranking
    computation and the two statistics handlers), of
    [webapp/go/top_handler.go] (the tag cache and the tag list) and of
    the reaction handlers, with the properties of the specification and
    further properties of the code stated over it. *)

From Stdlib Require Import ZArith List Bool Lia Permutation Sorted.
From Stdlib Require Import Strings.String Strings.Ascii.
From stdpp Require Import base list sorting gmap strings.
From stdpp Require Import pretty.
Import ListNotations.

Local Open Scope Z_scope.

(** ** Go's [int64] *)

Module Int64.
Definition modulus : Z := 2 ^ 64.
Definition MaxInt64 : Z := 2 ^ 63 - 1.
Definition MinInt64 : Z := - 2 ^ 63.

  (** Two's complement wrap-around of an arithmetic result. *)
Definition wrap (z : Z) : Z := (z + 2 ^ 63) mod modulus - 2 ^ 63.

Definition add (a b : Z) : Z := wrap (a + b).

Definition in_range (z : Z) : Prop := MinInt64 <= z <= MaxInt64.
End Int64.

(** ** Go's [sort.Sort]

    [sort.Sort] belongs to Go's standard library.  Its contract is that
    the slice is rearranged so that no element is [Less] than the one
    before it.  The executable model is insertion sort driven by the
    [Less] method of the slice type; [sort_Sort_unique] below shows that
    for the two [Less] methods of this program every ordered
    rearrangement of the input is this very list. *)

Section Sort.
Context {A : Type} (Less : A -> A -> bool).

Fixpoint insertLess (x : A) (data : list A) : list A :=
    match data with
    | [] => [x]
    | y :: rest => if Less x y then x :: y :: rest else y :: insertLess x rest
    end.

Fixpoint sort_Sort (data : list A) : list A :=
    match data with
    | [] => []
    | x :: rest => insertLess x (sort_Sort rest)
    end.

  (** [!Less(b, a)]: the order in which [sort.IsSorted] accepts [a] before [b]. *)
Definition notAfter (a b : A) : Prop := Less b a = false.
End Sort.

(** ** The rank loop

    <<
    var rank int64 = 1
    for i := len(ranking) - 1; i >= 0; i-- {
        entry := ranking[i]
        if entry.<key> == <target> { break }
        rank++
    }
    >>
    [rankLoop isTarget ranking n rank] is the loop about to test
    [i >= 0] with [i = n - 1]. *)

Section RankLoop.
Context {A : Type} (isTarget : A -> bool).

Fixpoint rankLoop (ranking : list A) (n : nat) (rank : Z) : Z :=
    match n with
    | O => rank
    | S i =>
        match ranking !! i with
        | Some entry =>
            if isTarget entry then rank
            else rankLoop ranking i (Int64.add rank 1)
        | None => rank (* index out of range: not reached for n <= len *)
        end
    end.

Definition rankOf (ranking : list A) : Z :=
    rankLoop ranking (length ranking) 1.

  (** The same scan over the entries listed from the last to the first. *)
Fixpoint scanDown (desc : list A) (rank : Z) : Z :=
    match desc with
    | [] => rank
    | entry :: rest =>
        if isTarget entry then rank else scanDown rest (Int64.add rank 1)
    end.
End RankLoop.

(** ** The ranking types of [stats_handler.go] *)

Module LivestreamRankingEntry.
Record t : Type := mk { LivestreamID : Z; Score : Z }.
End LivestreamRankingEntry.

Definition LivestreamRanking : Type := list LivestreamRankingEntry.t.

Definition LivestreamRanking_Less (ri rj : LivestreamRankingEntry.t) : bool :=
  if LivestreamRankingEntry.Score ri =? LivestreamRankingEntry.Score rj
  then LivestreamRankingEntry.LivestreamID ri <? LivestreamRankingEntry.LivestreamID rj
  else LivestreamRankingEntry.Score ri <? LivestreamRankingEntry.Score rj.

Module UserRankingEntry.
Record t : Type := mk { Username : string; Score : Z }.
End UserRankingEntry.

Definition UserRanking : Type := list UserRankingEntry.t.

(** Go compares strings byte by byte, a proper prefix being smaller:
    this is [String.ltb]. *)
Definition UserRanking_Less (ri rj : UserRankingEntry.t) : bool :=
  if UserRankingEntry.Score ri =? UserRankingEntry.Score rj
  then String.ltb (UserRankingEntry.Username ri) (UserRankingEntry.Username rj)
  else UserRankingEntry.Score ri <? UserRankingEntry.Score rj.

(** [sort.Sort(ranking)] followed by the rank loop of
    [getLivestreamStatisticsHandler]. *)
Definition livestreamRank (ranking : LivestreamRanking) (livestreamID : Z) : Z :=
  rankOf (fun entry => LivestreamRankingEntry.LivestreamID entry =? livestreamID)
         (sort_Sort LivestreamRanking_Less ranking).

(** [sort.Sort(ranking)] followed by the rank loop of
    [getUserStatisticsHandler]. *)
Definition userRank (ranking : UserRanking) (username : string) : Z :=
  rankOf (fun entry => String.eqb (UserRankingEntry.Username entry) username)
         (sort_Sort UserRanking_Less ranking).

(** ** Vocabulary of the ranking properties *)

Fixpoint countIf {A : Type} (p : A -> bool) (l : list A) : nat :=
  match l with
  | [] => O
  | x :: rest => ((if p x then 1 else 0) + countIf p rest)%nat
  end.

(** How many entries of [ranking] the order [Less] puts strictly after [e]. *)
Definition above {A : Type} (Less : A -> A -> bool) (e : A) (ranking : list A) : Z :=
  Z.of_nat (countIf (Less e) ranking).

(** One record per entity. *)
Definition distinctLivestreams (ranking : LivestreamRanking) : Prop :=
  NoDup (map LivestreamRankingEntry.LivestreamID ranking).

Definition distinctUsers (ranking : UserRanking) : Prop :=
  NoDup (map UserRankingEntry.Username ranking).

(** A Go slice is shorter than [math.MaxInt64] entries. *)
Definition sliceLen {A : Type} (l : list A) : Prop :=
  Z.of_nat (length l) < Int64.MaxInt64.

(** The reading of the rank as a position counted from the lowest
    score upward: the scan started at the first entry of the sorted
    slice instead of the last. *)
Definition livestreamRankFromLowest (ranking : LivestreamRanking) (livestreamID : Z) : Z :=
  scanDown (fun entry => LivestreamRankingEntry.LivestreamID entry =? livestreamID)
           (sort_Sort LivestreamRanking_Less ranking) 1.

(** ** Errors and the outcome of a handler *)

(** Go [error] values as this program inspects them: [sql.ErrNoRows],
    any other error of a collaborator with its message, and
    [fmt.Errorf(prefix + "%w", cause)]. *)
Inductive error : Type :=
| ErrNoRows
| ErrOther (msg : string)
| Errorf (prefix : string) (cause : error).

Fixpoint error_Error (e : error) : string :=
  match e with
  | ErrNoRows => "sql: no rows in result set"
  | ErrOther msg => msg
  | Errorf prefix cause => prefix ++ error_Error cause
  end.

(** [errors.Is(err, sql.ErrNoRows)] *)
Fixpoint isErrNoRows (e : error) : bool :=
  match e with
  | ErrNoRows => true
  | ErrOther _ => false
  | Errorf _ cause => isErrNoRows cause
  end.

Module HTTPError.
Record t : Type := mk { Code : Z; Message : string }.
End HTTPError.

Definition StatusOK : Z := 200.
Definition StatusBadRequest : Z := 400.
Definition StatusInternalServerError : Z := 500.

(** What running a handler body leads to: it goes on with a value, it
    returns an [echo.HTTPError], or it panics on a nil pointer. *)
Inductive outcome (A : Type) : Type :=
| Ok (a : A)
| Fail (e : HTTPError.t)
| Panic.
Arguments Ok {A} a.
Arguments Fail {A} e.
Arguments Panic {A}.

Global Instance outcome_ret : MRet outcome := fun A a => Ok a.
Global Instance outcome_bind : MBind outcome := fun A B f m =>
  match m with
  | Ok a => f a
  | Fail e => Fail e
  | Panic => Panic
  end.

Definition NewHTTPError {A} (code : Z) (message : string) : outcome A :=
  Fail (HTTPError.mk code message).

(** [if err := q; err != nil { return NewHTTPError(500, what + err.Error()) }] *)
Definition orInternalError {A} (what : string) (r : error + A) : outcome A :=
  match r with
  | inr a => Ok a
  | inl err => NewHTTPError StatusInternalServerError (what ++ error_Error err)
  end.

(** [if err := tx.GetContext(ctx, &v, q); err != nil && !errors.Is(err, sql.ErrNoRows) {...}]
    where [v] holds [zero] before the call. *)
Definition orZeroOnNoRows {A} (what : string) (zero : A) (r : error + A) : outcome A :=
  match r with
  | inr a => Ok a
  | inl err =>
      if isErrNoRows err then Ok zero
      else NewHTTPError StatusInternalServerError (what ++ error_Error err)
  end.

(** ** The user statistics handler ([getUserStatisticsHandler]) *)

(** The row types [UserModel] and [LivestreamModel] are declared in
    files of the application other than the two handlers; the handler
    reads [ID] and [Name] of a user and [ID] of a livestream. *)
Module UserModel.
Record t : Type := mk { ID : Z; Name : string }.
End UserModel.

Module LivestreamModel.
Record t : Type := mk { ID : Z }.
End LivestreamModel.

Module UserScores.
Record t : Type := mk { UserID : Z; Reactions : Z; Tips : Z }.
End UserScores.

Module LivestreamStats.
Record t : Type := mk { LivestreamID : Z; LivecommentsCount : Z; TotalTip : Z }.
End LivestreamStats.

Module UserStatistics.
Record t : Type := mk {
  Rank : Z;
  ViewersCount : Z;
  TotalReactions : Z;
  TotalLivecomments : Z;
  TotalTip : Z;
  FavoriteEmoji : string }.
End UserStatistics.

(** The collaborators of the handler: the session check and the answer
    of the data store to each statement the handler issues.  The
    answers are unrelated to each other, so every database state, and
    every way a statement can fail, is one value of this record. *)
Module StatsStore.
Record t : Type := mk {
  verifyUserSession : option HTTPError.t;
  BeginTxx : option error;
  (* SELECT * FROM users WHERE name = ? *)
  getUser : string -> error + UserModel.t;
  (* SELECT * FROM users *)
  selectUsers : error + list UserModel.t;
  (* reactionsQuery *)
  selectReactions : error + list UserScores.t;
  (* tipsQuery *)
  selectTips : error + list UserScores.t;
  (* SELECT COUNT( * ) ... WHERE u.name = ? *)
  countReactions : string -> error + Z;
  (* statsQuery, by user id *)
  selectLivestreamStats : Z -> error + list LivestreamStats.t;
  (* SELECT COUNT( * ) FROM livestream_viewers_history WHERE livestream_id = ? *)
  countViewersHistory : Z -> error + Z;
  (* favourite emoji, by user name *)
  getFavoriteEmoji : string -> error + string }.
End StatsStore.

(** [for _, user := range users { userScoresMap[user.ID] = &UserScores{UserID: user.ID} }] *)
Fixpoint initUserScores (userScoresMap : gmap Z UserScores.t) (users : list UserModel.t)
  : gmap Z UserScores.t :=
  match users with
  | [] => userScoresMap
  | user :: rest =>
      initUserScores
        (<[UserModel.ID user := UserScores.mk (UserModel.ID user) 0 0]> userScoresMap) rest
  end.

(** [for _, score := range reactions { userScoresMap[score.UserID].Reactions = score.Reactions }]:
    a missing key yields a nil pointer, and the assignment panics. *)
Fixpoint mapReactions (userScoresMap : gmap Z UserScores.t) (reactions : list UserScores.t)
  : outcome (gmap Z UserScores.t) :=
  match reactions with
  | [] => Ok userScoresMap
  | score :: rest =>
      match userScoresMap !! UserScores.UserID score with
      | Some p =>
          mapReactions
            (<[UserScores.UserID score :=
                 UserScores.mk (UserScores.UserID p) (UserScores.Reactions score)
                               (UserScores.Tips p)]> userScoresMap) rest
      | None => Panic
      end
  end.

(** [for _, score := range tips { userScoresMap[score.UserID].Tips = score.Tips }] *)
Fixpoint mapTips (userScoresMap : gmap Z UserScores.t) (tips : list UserScores.t)
  : outcome (gmap Z UserScores.t) :=
  match tips with
  | [] => Ok userScoresMap
  | score :: rest =>
      match userScoresMap !! UserScores.UserID score with
      | Some p =>
          mapTips
            (<[UserScores.UserID score :=
                 UserScores.mk (UserScores.UserID p) (UserScores.Reactions p)
                               (UserScores.Tips score)]> userScoresMap) rest
      | None => Panic
      end
  end.

(** The loop that appends one [UserRankingEntry] per user. *)
Fixpoint buildRanking (userScoresMap : gmap Z UserScores.t) (ranking : UserRanking)
  (users : list UserModel.t) : outcome UserRanking :=
  match users with
  | [] => Ok ranking
  | user :: rest =>
      match userScoresMap !! UserModel.ID user with
      | Some score =>
          buildRanking userScoresMap
            (ranking ++ [UserRankingEntry.mk (UserModel.Name user)
                           (Int64.add (UserScores.Reactions score) (UserScores.Tips score))])
            rest
      | None => Panic
      end
  end.

(** [for _, stat := range livestreamStatsList { totalLivecomments += ...; totalTip += ... }] *)
Fixpoint sumStats (totalLivecomments totalTip : Z) (livestreamStatsList : list LivestreamStats.t)
  : Z * Z :=
  match livestreamStatsList with
  | [] => (totalLivecomments, totalTip)
  | stat :: rest =>
      sumStats (Int64.add totalLivecomments (LivestreamStats.LivecommentsCount stat))
               (Int64.add totalTip (LivestreamStats.TotalTip stat)) rest
  end.

(** [for _, livestream := range livestreams { ...; viewersCount += cnt }] *)
Fixpoint sumViewers (db : StatsStore.t) (viewersCount : Z) (livestreams : list LivestreamModel.t)
  : outcome Z :=
  match livestreams with
  | [] => Ok viewersCount
  | livestream :: rest =>
      cnt ← orZeroOnNoRows "failed to get livestream_view_history: " 0
              (StatsStore.countViewersHistory db (LivestreamModel.ID livestream));
      sumViewers db (Int64.add viewersCount cnt) rest
  end.

(** The handler, for the path parameter [username].  Its value is the
    status and the record handed to [c.JSON]. *)
Definition getUserStatisticsHandler (db : StatsStore.t) (username : string)
  : outcome (Z * UserStatistics.t) :=
  match StatsStore.verifyUserSession db with Some err => Fail err | None => Ok () end;;
  orInternalError "failed to begin transaction: "
    (match StatsStore.BeginTxx db with Some err => inl err | None => inr () end);;
  user ← match StatsStore.getUser db username with
         | inr u => Ok u
         | inl err =>
             if isErrNoRows err
             then NewHTTPError StatusBadRequest "not found user that has the given username"
             else NewHTTPError StatusInternalServerError
                    ("failed to get user: " ++ error_Error err)
         end;
  users ← orInternalError "failed to get users: " (StatsStore.selectUsers db);
  let userScoresMap := initUserScores ∅ users in
  reactions ← orInternalError "failed to count reactions: " (StatsStore.selectReactions db);
  userScoresMap ← mapReactions userScoresMap reactions;
  tips ← orInternalError "failed to count tips: " (StatsStore.selectTips db);
  userScoresMap ← mapTips userScoresMap tips;
  ranking ← buildRanking userScoresMap [] users;
  let rank := userRank ranking username in
  totalReactions ← orZeroOnNoRows "failed to count total reactions: " 0
                     (StatsStore.countReactions db username);
  livestreamStatsList ← orInternalError "failed to get livestream livestreamStatsList: "
                          (StatsStore.selectLivestreamStats db (UserModel.ID user));
  let livestreams : list LivestreamModel.t := [] in
  let '(totalLivecomments, totalTip) := sumStats 0 0 livestreamStatsList in
  viewersCount ← sumViewers db 0 livestreams;
  favoriteEmoji ← orZeroOnNoRows "failed to find favorite emoji: " ""%string
                    (StatsStore.getFavoriteEmoji db username);
  Ok (StatusOK,
      UserStatistics.mk rank viewersCount totalReactions totalLivecomments totalTip
                        favoriteEmoji).

(** ** The tag cache ([top_handler.go]) *)

Module TagModel.
Record t : Type := mk { ID : Z; Name : string }.
End TagModel.

(** The two maps of [TagCache]; the lock [mu] orders concurrent
    callers and holds no data. *)
Module TagCache.
Record t : Type := mk {
  tags : gmap Z TagModel.t;
  nameToID : gmap string Z }.
End TagCache.

Definition NewTagCache : TagCache.t := TagCache.mk ∅ ∅.

(** [tag, found := c.tags[id]]: a missing key gives the zero value. *)
Definition GetTagByID (c : TagCache.t) (id : Z) : TagModel.t * bool :=
  match TagCache.tags c !! id with
  | Some tag => (tag, true)
  | None => (TagModel.mk 0 "", false)
  end.

Definition GetTagIDByName (c : TagCache.t) (name : string) : Z * bool :=
  match TagCache.nameToID c !! name with
  | Some id => (id, true)
  | None => (0, false)
  end.

(** What [initTagCache] meets on its way: the results of opening the
    transaction, of [SELECT * FROM tags], of the commit, and of writing
    the JSON reply. *)
Module TagStore.
Record t : Type := mk {
  BeginTxx : option error;
  selectTags : error + list TagModel.t;
  Commit : option error;
  JSON : option error }.
End TagStore.

(** [for _, tagModel := range tagModels { ... }] on the package-level cache. *)
Fixpoint loadTags (c : TagCache.t) (tagModels : list TagModel.t) : TagCache.t :=
  match tagModels with
  | [] => c
  | tagModel :: rest =>
      loadTags
        (TagCache.mk (<[TagModel.ID tagModel := tagModel]> (TagCache.tags c))
                     (<[TagModel.Name tagModel := TagModel.ID tagModel]> (TagCache.nameToID c)))
        rest
  end.

(** [initTagCache]: the returned [error] ([None] for [nil]) and the
    package-level [tagCache] after the call. *)
Definition initTagCache (db : TagStore.t) (tagCache : TagCache.t)
  : option error * TagCache.t :=
  match TagStore.BeginTxx db with
  | Some err => (Some (Errorf "failed to begin transaction: " err), tagCache)
  | None =>
      match TagStore.selectTags db with
      | inl err => (Some (Errorf "failed to get tags: " err), tagCache)
      | inr tagModels =>
          match TagStore.Commit db with
          | Some err => (Some (Errorf "failed to commit: " err), tagCache)
          | None => (TagStore.JSON db, loadTags tagCache tagModels)
          end
      end
  end.

(** The last row of [rows] that satisfies [p]: the one whose map
    assignment no later row overwrites. *)
Fixpoint lastRow (p : TagModel.t -> bool) (rows : list TagModel.t) : option TagModel.t :=
  match rows with
  | [] => None
  | row :: rest =>
      match lastRow p rest with
      | Some later => Some later
      | None => if p row then Some row else None
      end
  end.

(** Every id that the name index yields is a key of the tag index, and
    the tag stored there carries that id. *)
Definition nameIndexConsistent (c : TagCache.t) : Prop :=
  forall name id, GetTagIDByName c name = (id, true) ->
    exists tag, GetTagByID c id = (tag, true) /\ TagModel.ID tag = id.

(** ** Sample data *)

(** The scenario of the specification: ids 1, 2, 3 with scores 10, 30, 10. *)
Definition scenarioScores : LivestreamRanking :=
  [LivestreamRankingEntry.mk 1 10; LivestreamRankingEntry.mk 2 30;
   LivestreamRankingEntry.mk 3 10].

Definition scenarioUsers : UserRanking :=
  [UserRankingEntry.mk "alice" 10; UserRankingEntry.mk "bob" 30;
   UserRankingEntry.mk "carol" 10].

Definition twoScores : LivestreamRanking :=
  [LivestreamRankingEntry.mk 1 10; LivestreamRankingEntry.mk 2 30].

(** A data store holding two users; every livestream asked about has
    five rows of viewer history. *)
Definition sampleStatsStore : StatsStore.t :=
  StatsStore.mk None None
    (fun name => if String.eqb name "alice" then inr (UserModel.mk 1 "alice")
                 else inl ErrNoRows)
    (inr [UserModel.mk 1 "alice"; UserModel.mk 2 "bob"])
    (inr [UserScores.mk 1 3 0; UserScores.mk 2 1 0])
    (inr [UserScores.mk 1 0 100])
    (fun _ => inr 3)
    (fun _ => inr [LivestreamStats.mk 11 2 100; LivestreamStats.mk 12 0 0])
    (fun _ => inr 5)
    (fun _ => inr "heart"%string).

(** A data store whose [tags] table holds [rows] and where nothing fails. *)
Definition tagStoreOf (rows : list TagModel.t) : TagStore.t :=
  TagStore.mk None (inr rows) None None.

(** A data store whose transaction opens and whose bulk read fails. *)
Definition failingTagStore : TagStore.t :=
  TagStore.mk None (inl (ErrOther "connection lost")) None None.

Definition oldRows : list TagModel.t := [TagModel.mk 9 "old"].
Definition newRows : list TagModel.t := [TagModel.mk 1 "a"; TagModel.mk 2 "b"].

(** * The remaining handlers *)

(** ** The livestream statistics handler ([getLivestreamStatisticsHandler]) *)

Module LivestreamStatistics.
Record t : Type := mk {
  Rank : Z;
  ViewersCount : Z;
  TotalReactions : Z;
  TotalReports : Z;
  MaxTip : Z }.
End LivestreamStatistics.

(** The collaborators of the handler.  [Atoi] is [strconv.Atoi] of
    Go's library applied to the path parameter; the other fields are
    the answers of the data store, one per statement text. *)
Module LivestreamStatsStore.
Record t : Type := mk {
  verifyUserSession : option HTTPError.t;
  Atoi : string -> error + Z;
  BeginTxx : option error;
  (* SELECT * FROM livestreams WHERE id = ? *)
  getLivestream : Z -> error + LivestreamModel.t;
  (* SELECT * FROM livestreams *)
  selectLivestreams : error + list LivestreamModel.t;
  (* SELECT COUNT( * ) FROM livestreams l INNER JOIN reactions r ON l.id = r.livestream_id ... *)
  countReactions : Z -> error + Z;
  (* SELECT IFNULL(SUM(l2.tip), 0) ... *)
  sumTips : Z -> error + Z;
  (* ... INNER JOIN livestream_viewers_history h ... *)
  countViewers : Z -> error + Z;
  (* SELECT IFNULL(MAX(tip), 0) ... *)
  maxTip : Z -> error + Z;
  (* SELECT COUNT( * ) FROM livestreams l INNER JOIN reactions r ON r.livestream_id = l.id ... *)
  countTotalReactions : Z -> error + Z;
  (* ... INNER JOIN livecomment_reports r ... *)
  countReports : Z -> error + Z;
  Commit : option error }.
End LivestreamStatsStore.

(** The loop that appends one [LivestreamRankingEntry] per livestream. *)
Fixpoint buildLivestreamRanking (db : LivestreamStatsStore.t) (ranking : LivestreamRanking)
  (livestreams : list LivestreamModel.t) : outcome LivestreamRanking :=
  match livestreams with
  | [] => Ok ranking
  | livestream :: rest =>
      reactions ← orZeroOnNoRows "failed to count reactions: " 0
                    (LivestreamStatsStore.countReactions db (LivestreamModel.ID livestream));
      totalTips ← orZeroOnNoRows "failed to count tips: " 0
                    (LivestreamStatsStore.sumTips db (LivestreamModel.ID livestream));
      let score := Int64.add reactions totalTips in
      buildLivestreamRanking db
        (ranking ++ [LivestreamRankingEntry.mk (LivestreamModel.ID livestream) score]) rest
  end.

(** The handler, for the path parameter [livestream_id]. *)
Definition getLivestreamStatisticsHandler (db : LivestreamStatsStore.t) (livestream_id : string)
  : outcome (Z * LivestreamStatistics.t) :=
  match LivestreamStatsStore.verifyUserSession db with
  | Some err => Fail err
  | None => Ok ()
  end;;
  livestreamID ← match LivestreamStatsStore.Atoi db livestream_id with
                 | inr id => Ok id
                 | inl _ => NewHTTPError StatusBadRequest
                              "livestream_id in path must be integer"
                 end;
  orInternalError "failed to begin transaction: "
    (match LivestreamStatsStore.BeginTxx db with Some err => inl err | None => inr () end);;
  match LivestreamStatsStore.getLivestream db livestreamID with
  | inr l => Ok l
  | inl err =>
      if isErrNoRows err
      then NewHTTPError StatusBadRequest "cannot get stats of not found livestream"
      else NewHTTPError StatusInternalServerError
             ("failed to get livestream: " ++ error_Error err)
  end;;
  livestreams ← orZeroOnNoRows "failed to get livestreams: " []
                  (LivestreamStatsStore.selectLivestreams db);
  ranking ← buildLivestreamRanking db [] livestreams;
  let rank := livestreamRank ranking livestreamID in
  viewersCount ← orZeroOnNoRows "failed to count livestream viewers: " 0
                   (LivestreamStatsStore.countViewers db livestreamID);
  maxTip ← orZeroOnNoRows "failed to find maximum tip livecomment: " 0
             (LivestreamStatsStore.maxTip db livestreamID);
  totalReactions ← orZeroOnNoRows "failed to count total reactions: " 0
                     (LivestreamStatsStore.countTotalReactions db livestreamID);
  totalReports ← orZeroOnNoRows "failed to count total spam reports: " 0
                   (LivestreamStatsStore.countReports db livestreamID);
  orInternalError "failed to commit: "
    (match LivestreamStatsStore.Commit db with Some err => inl err | None => inr () end);;
  Ok (StatusOK,
      LivestreamStatistics.mk rank viewersCount totalReactions totalReports maxTip).

(** ** Vocabulary of the statistics properties *)

(** The value that the last row of [rows] for [userID] assigns, [0]
    (the zero value of a fresh [UserScores]) when no row names it. *)
Fixpoint lastScore (field : UserScores.t -> Z) (userID : Z) (rows : list UserScores.t) : Z :=
  match rows with
  | [] => 0
  | row :: rest =>
      if existsb (fun r => UserScores.UserID r =? userID) rest then lastScore field userID rest
      else if UserScores.UserID row =? userID then field row
      else 0
  end.

(** The ranking as a function of the three row lists: one entry per
    user, scored by its reactions plus its tips. *)
Definition userRankingOf (users : list UserModel.t) (reactions tips : list UserScores.t)
  : UserRanking :=
  map (fun user =>
         UserRankingEntry.mk (UserModel.Name user)
           (Int64.add (lastScore UserScores.Reactions (UserModel.ID user) reactions)
                      (lastScore UserScores.Tips (UserModel.ID user) tips)))
      users.

(** Every row names a user of [users]. *)
Definition knownUsers (users : list UserModel.t) (rows : list UserScores.t) : Prop :=
  forall row, In row rows -> In (UserScores.UserID row) (map UserModel.ID users).

Fixpoint sumZ (l : list Z) : Z :=
  match l with
  | [] => 0
  | x :: rest => x + sumZ rest
  end.

(** ** The tag list handler ([getTagHandler]) *)

Module Tag.
Record t : Type := mk { ID : Z; Name : string }.
End Tag.

(** [range] over a Go map visits each entry once, in an order that the
    language leaves open: [visit] is such an order. *)
Definition rangeOrder (m : gmap Z TagModel.t) (visit : list (Z * TagModel.t)) : Prop :=
  visit ≡ₚ map_to_list m.

(** The handler, given the order in which [range tagCache.tags] yields
    the entries: the status and the [Tags] of the reply. *)
Definition getTagHandler (visit : list (Z * TagModel.t)) : Z * list Tag.t :=
  (StatusOK,
   map (fun kv => Tag.mk (TagModel.ID (snd kv)) (TagModel.Name (snd kv))) visit).

(** Every tag is stored under its own id. *)
Definition tagKeysConsistent (c : TagCache.t) : Prop :=
  forall id tag, TagCache.tags c !! id = Some tag -> TagModel.ID tag = id.

(** The value a tolerant read leaves in its destination: the scanned
    value, or the zero the variable held when the read found no row. *)
Definition valueOrZero (r : error + Z) : Z :=
  match r with
  | inr v => v
  | inl _ => 0
  end.

(** The livestream ranking as a function of the rows and of the two
    counts per row. *)
Definition livestreamRankingOf (db : LivestreamStatsStore.t)
  (livestreams : list LivestreamModel.t) : LivestreamRanking :=
  map (fun livestream =>
         LivestreamRankingEntry.mk (LivestreamModel.ID livestream)
           (Int64.add
              (valueOrZero (LivestreamStatsStore.countReactions db
                              (LivestreamModel.ID livestream)))
              (valueOrZero (LivestreamStatsStore.sumTips db
                              (LivestreamModel.ID livestream)))))
      livestreams.

(** ** The reaction handlers (the third handler file) *)

(** The API types [User] and [Livestream] and the functions
    [fillUserResponse] and [fillLivestreamResponse] that build them are
    declared elsewhere in the application: the types are parameters
    [TUser] and [TLivestream], the functions are fields of the store. *)
Module ReactionModel.
Record t : Type := mk {
  ID : Z;
  EmojiName : string;
  UserID : Z;
  LivestreamID : Z;
  CreatedAt : Z }.
End ReactionModel.

Module Reaction.
Record t (TUser TLivestream : Type) : Type := mk {
  ID : Z;
  EmojiName : string;
  User : TUser;
  Livestream : TLivestream;
  CreatedAt : Z }.
Arguments mk {TUser TLivestream} _ _ _ _ _.
Arguments ID {TUser TLivestream} _.
Arguments EmojiName {TUser TLivestream} _.
Arguments User {TUser TLivestream} _.
Arguments Livestream {TUser TLivestream} _.
Arguments CreatedAt {TUser TLivestream} _.
End Reaction.

Module PostReactionRequest.
Record t : Type := mk { EmojiName : string }.
End PostReactionRequest.

Definition StatusCreated : Z := 201.
Definition StatusNotFound : Z := 404.

(** The collaborators of the reaction handlers.  [decodeBody] is the
    result of decoding the request body into [req], a pointer that is
    nil ([None]) after decoding the JSON value null; [insertReaction]
    is the INSERT followed by [LastInsertId]; [selectReactions] is the
    SELECT by livestream id with the optional LIMIT; [selectUsersIn]
    and [selectLivestreamsIn] are [sqlx.In] followed by the SELECT. *)
Module ReactionStore.
Record t (TUser TLivestream : Type) : Type := mk {
  verifyUserSession : option HTTPError.t;
  Atoi : string -> error + Z;
  sessionUserID : Z;
  decodeBody : error + option PostReactionRequest.t;
  now : Z;
  BeginTxx : option error;
  selectReactions : Z -> option Z -> error + list ReactionModel.t;
  insertReaction : ReactionModel.t -> error + (error + Z);
  getUser : Z -> error + UserModel.t;
  getLivestream : Z -> error + LivestreamModel.t;
  selectUsersIn : list Z -> error + list UserModel.t;
  selectLivestreamsIn : list Z -> error + list LivestreamModel.t;
  fillUserResponse : UserModel.t -> error + TUser;
  fillLivestreamResponse : LivestreamModel.t -> error + TLivestream;
  Commit : option error }.
Arguments verifyUserSession {TUser TLivestream} _.
Arguments Atoi {TUser TLivestream} _ _.
Arguments sessionUserID {TUser TLivestream} _.
Arguments decodeBody {TUser TLivestream} _.
Arguments now {TUser TLivestream} _.
Arguments BeginTxx {TUser TLivestream} _.
Arguments selectReactions {TUser TLivestream} _ _ _.
Arguments insertReaction {TUser TLivestream} _ _.
Arguments getUser {TUser TLivestream} _ _.
Arguments getLivestream {TUser TLivestream} _ _.
Arguments selectUsersIn {TUser TLivestream} _ _.
Arguments selectLivestreamsIn {TUser TLivestream} _ _.
Arguments fillUserResponse {TUser TLivestream} _ _.
Arguments fillLivestreamResponse {TUser TLivestream} _ _.
Arguments Commit {TUser TLivestream} _.
End ReactionStore.

(** [if err != nil { return ..., err }] on a pair of a value and an error. *)
Global Instance result_bind : MBind (sum error) := fun A B f m =>
  match m with
  | inl err => inl err
  | inr a => f a
  end.

Section Reactions.
Context {TUser TLivestream : Type}.
#[local] Abbreviation Store := (ReactionStore.t TUser TLivestream).
#[local] Abbreviation ReactionT := (Reaction.t TUser TLivestream).

Definition fillReactionResponse (db : Store) (reactionModel : ReactionModel.t)
  : error + ReactionT :=
  userModel ← ReactionStore.getUser db (ReactionModel.UserID reactionModel);
  user ← ReactionStore.fillUserResponse db userModel;
  livestreamModel ← ReactionStore.getLivestream db (ReactionModel.LivestreamID reactionModel);
  livestream ← ReactionStore.fillLivestreamResponse db livestreamModel;
  inr (Reaction.mk (ReactionModel.ID reactionModel) (ReactionModel.EmojiName reactionModel)
         user livestream (ReactionModel.CreatedAt reactionModel)).

(** [for _, userModel := range userModels { userModelMap[userModel.ID] = userModel }] *)
Fixpoint indexUsers (userModelMap : gmap Z UserModel.t) (userModels : list UserModel.t)
  : gmap Z UserModel.t :=
  match userModels with
  | [] => userModelMap
  | userModel :: rest =>
      indexUsers (<[UserModel.ID userModel := userModel]> userModelMap) rest
  end.

Fixpoint indexLivestreams (livestreamModelMap : gmap Z LivestreamModel.t)
  (livestreamModels : list LivestreamModel.t) : gmap Z LivestreamModel.t :=
  match livestreamModels with
  | [] => livestreamModelMap
  | livestreamModel :: rest =>
      indexLivestreams
        (<[LivestreamModel.ID livestreamModel := livestreamModel]> livestreamModelMap) rest
  end.

(** The last loop of [fillReactionsResponse]. *)
Fixpoint fillReactionsLoop (db : Store) (userModelMap : gmap Z UserModel.t)
  (livestreamModelMap : gmap Z LivestreamModel.t) (reactions : list ReactionT)
  (reactionModels : list ReactionModel.t) : error + list ReactionT :=
  match reactionModels with
  | [] => inr reactions
  | reactionModel :: rest =>
      userModel ← match userModelMap !! ReactionModel.UserID reactionModel with
                  | Some userModel => inr userModel
                  | None => inl (ErrOther ("user not found for id "
                                           ++ pretty (ReactionModel.UserID reactionModel)))
                  end;
      user ← ReactionStore.fillUserResponse db userModel;
      livestreamModel ←
        match livestreamModelMap !! ReactionModel.LivestreamID reactionModel with
        | Some livestreamModel => inr livestreamModel
        | None => inl (ErrOther ("livestream not found for id "
                                 ++ pretty (ReactionModel.LivestreamID reactionModel)))
        end;
      livestream ← ReactionStore.fillLivestreamResponse db livestreamModel;
      fillReactionsLoop db userModelMap livestreamModelMap
        (reactions ++ [Reaction.mk (ReactionModel.ID reactionModel)
                         (ReactionModel.EmojiName reactionModel) user livestream
                         (ReactionModel.CreatedAt reactionModel)])
        rest
  end.

Definition fillReactionsResponse (db : Store) (reactionModels : list ReactionModel.t)
  : error + list ReactionT :=
  if (length reactionModels =? 0)%nat then inr []
  else
    let userIDs := map ReactionModel.UserID reactionModels in
    let livestreamIDs := map ReactionModel.LivestreamID reactionModels in
    userModels ← ReactionStore.selectUsersIn db userIDs;
    let userModelMap := indexUsers ∅ userModels in
    livestreamModels ← ReactionStore.selectLivestreamsIn db livestreamIDs;
    let livestreamModelMap := indexLivestreams ∅ livestreamModels in
    fillReactionsLoop db userModelMap livestreamModelMap [] reactionModels.

(** The handler of GET, for the path parameter [livestream_id] and the
    query parameter [limit]. *)
Definition getReactionsHandler (db : Store) (livestream_id limit : string)
  : outcome (Z * list ReactionT) :=
  match ReactionStore.verifyUserSession db with Some err => Fail err | None => Ok () end;;
  livestreamID ← match ReactionStore.Atoi db livestream_id with
                 | inr id => Ok id
                 | inl _ => NewHTTPError StatusBadRequest
                              "livestream_id in path must be integer"
                 end;
  orInternalError "failed to begin transaction: "
    (match ReactionStore.BeginTxx db with Some err => inl err | None => inr () end);;
  limit ← (if String.eqb limit "" then Ok None
           else match ReactionStore.Atoi db limit with
                | inr n => Ok (Some n)
                | inl _ => NewHTTPError StatusBadRequest
                             "limit query parameter must be integer"
                end);
  reactionModels ← match ReactionStore.selectReactions db livestreamID limit with
                   | inr rows => Ok rows
                   | inl _ => NewHTTPError StatusNotFound "failed to get reactions"
                   end;
  reactions ← orInternalError "failed to fill reactions: "
                (fillReactionsResponse db reactionModels);
  orInternalError "failed to commit: "
    (match ReactionStore.Commit db with Some err => inl err | None => inr () end);;
  Ok (StatusOK, reactions).

(** The handler of POST, for the path parameter [livestream_id]. *)
Definition postReactionHandler (db : Store) (livestream_id : string)
  : outcome (Z * ReactionT) :=
  livestreamID ← match ReactionStore.Atoi db livestream_id with
                 | inr id => Ok id
                 | inl _ => NewHTTPError StatusBadRequest
                              "livestream_id in path must be integer"
                 end;
  match ReactionStore.verifyUserSession db with Some err => Fail err | None => Ok () end;;
  let userID := ReactionStore.sessionUserID db in
  req ← match ReactionStore.decodeBody db with
        | inr req => Ok req
        | inl _ => NewHTTPError StatusBadRequest "failed to decode the request body as json"
        end;
  orInternalError "failed to begin transaction: "
    (match ReactionStore.BeginTxx db with Some err => inl err | None => inr () end);;
  emojiName ← match req with
              | Some r => Ok (PostReactionRequest.EmojiName r)
              | None => Panic
              end;
  let reactionModel :=
    ReactionModel.mk 0 emojiName userID livestreamID (ReactionStore.now db) in
  result ← orInternalError "failed to insert reaction: "
             (ReactionStore.insertReaction db reactionModel);
  reactionID ← orInternalError "failed to get last inserted reaction id: " result;
  let reactionModel :=
    ReactionModel.mk reactionID (ReactionModel.EmojiName reactionModel)
      (ReactionModel.UserID reactionModel) (ReactionModel.LivestreamID reactionModel)
      (ReactionModel.CreatedAt reactionModel) in
  reaction ← orInternalError "failed to fill reaction: "
               (fillReactionResponse db reactionModel);
  orInternalError "failed to commit: "
    (match ReactionStore.Commit db with Some err => inl err | None => inr () end);;
  Ok (StatusCreated, reaction).

(** What a reply [r] owes to the row [m] it is built for. *)
Definition reactionOfRow (db : Store) (m : ReactionModel.t) (r : ReactionT) : Prop :=
  Reaction.ID r = ReactionModel.ID m
  /\ Reaction.EmojiName r = ReactionModel.EmojiName m
  /\ Reaction.CreatedAt r = ReactionModel.CreatedAt m
  /\ (exists u, UserModel.ID u = ReactionModel.UserID m
                /\ ReactionStore.fillUserResponse db u = inr (Reaction.User r))
  /\ (exists l, LivestreamModel.ID l = ReactionModel.LivestreamID m
                /\ ReactionStore.fillLivestreamResponse db l = inr (Reaction.Livestream r)).

(** One [fillReactionResponse] per reaction, in order: the reply that
    the batched [fillReactionsResponse] is to agree with. *)
Fixpoint fillEachReaction (db : Store) (reactionModels : list ReactionModel.t)
  : error + list ReactionT :=
  match reactionModels with
  | [] => inr []
  | reactionModel :: rest =>
      reaction ← fillReactionResponse db reactionModel;
      reactions ← fillEachReaction db rest;
      inr (reaction :: reactions)
  end.
End Reactions.

(** ** Further sample data *)

(** As [sampleStatsStore], with a reactions row for a user id 7 that
    [SELECT * FROM users] does not return. *)
Definition orphanStatsStore : StatsStore.t :=
  StatsStore.mk None None
    (fun name => if String.eqb name "alice" then inr (UserModel.mk 1 "alice")
                 else inl ErrNoRows)
    (inr [UserModel.mk 1 "alice"; UserModel.mk 2 "bob"])
    (inr [UserScores.mk 1 3 0; UserScores.mk 7 1 0])
    (inr [UserScores.mk 1 0 100])
    (fun _ => inr 3)
    (fun _ => inr [LivestreamStats.mk 11 2 100; LivestreamStats.mk 12 0 0])
    (fun _ => inr 5)
    (fun _ => inr "heart"%string).

(** A store with three livestreams; the path parameter "3" parses to 3. *)
Definition sampleLivestreamStore : LivestreamStatsStore.t :=
  LivestreamStatsStore.mk None
    (fun s => if String.eqb s "3" then inr 3 else inl (ErrOther "invalid syntax"))
    None
    (fun id => inr (LivestreamModel.mk id))
    (inr [LivestreamModel.mk 1; LivestreamModel.mk 2; LivestreamModel.mk 3])
    (fun id => if id =? 2 then inr 30 else inr 10)
    (fun _ => inl ErrNoRows)
    (fun _ => inr 4)
    (fun _ => inr 0)
    (fun _ => inr 10)
    (fun _ => inr 0)
    None.

(** As [sampleLivestreamStore], with a bulk read that finds no row. *)
Definition emptyLivestreamStore : LivestreamStatsStore.t :=
  LivestreamStatsStore.mk None
    (fun s => if String.eqb s "3" then inr 3 else inl (ErrOther "invalid syntax"))
    None
    (fun id => inr (LivestreamModel.mk id))
    (inl ErrNoRows)
    (fun id => inr 10)
    (fun _ => inr 0)
    (fun _ => inr 4)
    (fun _ => inr 0)
    (fun _ => inr 10)
    (fun _ => inr 0)
    None.

(** A data store whose [tags] table holds [rows] and where only the
    writing of the reply fails. *)
Definition replyFailsTagStore (rows : list TagModel.t) : TagStore.t :=
  TagStore.mk None (inr rows) None (Some (ErrOther "broken pipe")).

(** A reaction store over two users and two livestreams, with the
    user name as the filled user and the livestream id as the filled
    livestream; the path parameter "3" parses to 3. *)
Definition sampleReactionStore : ReactionStore.t string Z :=
  ReactionStore.mk string Z None
    (fun s => if String.eqb s "3" then inr 3 else inl (ErrOther "invalid syntax"))
    1
    (inr (Some (PostReactionRequest.mk "heart")))
    1700000000
    None
    (fun _ _ => inr [ReactionModel.mk 21 "heart" 2 3 1699999999;
                     ReactionModel.mk 20 "smile" 1 3 1699999998])
    (fun _ => inr (inr 22))
    (fun id => if id =? 1 then inr (UserModel.mk 1 "alice")
               else if id =? 2 then inr (UserModel.mk 2 "bob") else inl ErrNoRows)
    (fun id => if id =? 3 then inr (LivestreamModel.mk 3) else inl ErrNoRows)
    (fun _ => inr [UserModel.mk 1 "alice"; UserModel.mk 2 "bob"])
    (fun _ => inr [LivestreamModel.mk 3])
    (fun user => inr (UserModel.Name user))
    (fun livestream => inr (LivestreamModel.ID livestream))
    None.

Definition sampleReactionModels : list ReactionModel.t :=
  [ReactionModel.mk 21 "heart" 2 3 1699999999; ReactionModel.mk 20 "smile" 1 3 1699999998].


(** As [sampleReactionStore], with a batched user read that misses user 2. *)
Definition missingUserReactionStore : ReactionStore.t string Z :=
  ReactionStore.mk string Z None
    (fun s => if String.eqb s "3" then inr 3 else inl (ErrOther "invalid syntax"))
    1 (inr (Some (PostReactionRequest.mk "heart"))) 1700000000 None
    (fun _ _ => inr sampleReactionModels) (fun _ => inr (inr 22))
    (fun id => inr (UserModel.mk id "alice")) (fun id => inr (LivestreamModel.mk id))
    (fun _ => inr [UserModel.mk 1 "alice"]) (fun _ => inr [LivestreamModel.mk 3])
    (fun user => inr (UserModel.Name user))
    (fun livestream => inr (LivestreamModel.ID livestream))
    None.

(** * Properties *)

(** ** Arithmetic of [int64] *)

Lemma wrap_in_range z : Int64.in_range z -> Int64.wrap z = z.
Proof.
  unfold Int64.in_range, Int64.wrap, Int64.modulus, Int64.MinInt64, Int64.MaxInt64.
  intros Hz. rewrite Z.mod_small; lia.
Qed.

Lemma add_one_in_range r : 0 <= r < Int64.MaxInt64 -> Int64.add r 1 = r + 1.
Proof.
  intros Hr. unfold Int64.add. apply wrap_in_range.
  unfold Int64.in_range, Int64.MinInt64, Int64.MaxInt64 in *. lia.
Qed.

(** ** The rank loop scans the slice from its last entry *)

Section RankLoopFacts.
Context {A : Type} (isTarget : A -> bool).

Lemma rankLoop_app (l l' : list A) n r :
  (n <= length l)%nat -> rankLoop isTarget (l ++ l') n r = rankLoop isTarget l n r.
Proof.
  revert r. induction n as [|i IH]; intros r Hn; simpl; [reflexivity|].
  rewrite lookup_app_l by lia.
  destruct (l !! i) as [entry|]; [|reflexivity].
  destruct (isTarget entry); [reflexivity|]. apply IH. lia.
Qed.

Lemma rankLoop_scanDown (l : list A) r :
  rankLoop isTarget l (length l) r = scanDown isTarget (rev l) r.
Proof.
  revert r. induction l as [|x l IH] using rev_ind; intros r; [reflexivity|].
  rewrite rev_unit, length_app, Nat.add_1_r. simpl.
  rewrite lookup_app_r by lia. rewrite Nat.sub_diag. simpl.
  destruct (isTarget x); [reflexivity|].
  rewrite rankLoop_app by lia. apply IH.
Qed.

Lemma rankOf_scanDown (l : list A) : rankOf isTarget l = scanDown isTarget (rev l) 1.
Proof. apply rankLoop_scanDown. Qed.

(** No entry is the target: one increment per entry. *)
Lemma scanDown_absent (desc : list A) r :
  (forall x, In x desc -> isTarget x = false) ->
  0 <= r -> r + Z.of_nat (length desc) <= Int64.MaxInt64 ->
  scanDown isTarget desc r = r + Z.of_nat (length desc).
Proof.
  revert r. induction desc as [|x desc IH]; intros r Hno Hr Hlen; simpl in *; [lia|].
  rewrite (Hno x) by auto.
  rewrite add_one_in_range by lia.
  rewrite IH; [lia| |lia|lia]. intros y Hy. apply Hno. auto.
Qed.

(** The scan stops at the first target it meets. *)
Lemma scanDown_found (pre post : list A) e r :
  (forall x, In x pre -> isTarget x = false) -> isTarget e = true ->
  0 <= r -> r + Z.of_nat (length pre) <= Int64.MaxInt64 ->
  scanDown isTarget (pre ++ e :: post) r = r + Z.of_nat (length pre).
Proof.
  revert r. induction pre as [|x pre IH]; intros r Hno He Hr Hlen; simpl in *.
  - rewrite He. lia.
  - rewrite (Hno x) by auto.
    rewrite add_one_in_range by lia.
    rewrite IH; [lia| |assumption|lia|lia]. intros y Hy. apply Hno. auto.
Qed.

Lemma first_target (desc : list A) :
  (exists x, In x desc /\ isTarget x = true) ->
  exists pre e post, desc = pre ++ e :: post /\ isTarget e = true /\
                     forall x, In x pre -> isTarget x = false.
Proof.
  induction desc as [|y desc IH]; intros [x [Hin Hx]]; [destruct Hin|].
  destruct (isTarget y) eqn:Hy.
  - exists [], y, desc. repeat split; auto. intros ? [].
  - destruct Hin as [->|Hin]; [congruence|].
    destruct IH as (pre & e & post & -> & He & Hpre); [eauto|].
    exists (y :: pre), e, post. repeat split; auto.
    intros z [<-|Hz]; auto.
Qed.
End RankLoopFacts.

(** ** Sorting with a strict total [Less] *)

Section SortFacts.
Context {A : Type} (Less : A -> A -> bool).
Hypothesis Less_irrefl : forall a, Less a a = false.
Hypothesis Less_trans : forall a b c, Less a b = true -> Less b c = true -> Less a c = true.
Hypothesis Less_total : forall a b, Less a b = false -> Less b a = false -> a = b.

Lemma Less_asym a b : Less a b = true -> Less b a = false.
Proof.
  intros Hab. destruct (Less b a) eqn:Hba; [|reflexivity].
  rewrite <- (Less_irrefl a). symmetry. eapply Less_trans; eauto.
Qed.

Lemma notAfter_refl a : notAfter Less a a.
Proof. apply Less_irrefl. Qed.

Lemma notAfter_trans a b c : notAfter Less a b -> notAfter Less b c -> notAfter Less a c.
Proof.
  unfold notAfter. intros Hba Hcb.
  destruct (Less c a) eqn:Hca; [|reflexivity].
  destruct (Less a b) eqn:Hab.
  - rewrite <- Hcb. symmetry. eapply Less_trans; eauto.
  - assert (a = b) by auto. subst. congruence.
Qed.

Lemma notAfter_antisym a b : notAfter Less a b -> notAfter Less b a -> a = b.
Proof. unfold notAfter. auto. Qed.

Lemma notAfter_of_Less a b : Less a b = true -> notAfter Less a b.
Proof. apply Less_asym. Qed.

Lemma notAfter_strict a b : notAfter Less a b -> a <> b -> Less a b = true.
Proof.
  unfold notAfter. intros Hba Hne.
  destruct (Less a b) eqn:Hab; [reflexivity|]. exfalso. auto.
Qed.

#[local] Instance notAfter_Transitive : Transitive (notAfter Less).
Proof. intros a b c. apply notAfter_trans. Qed.

#[local] Instance notAfter_AntiSymm : AntiSymm (=) (notAfter Less).
Proof. intros a b. apply notAfter_antisym. Qed.

Lemma insertLess_Permutation x (l : list A) : insertLess Less x l ≡ₚ x :: l.
Proof.
  induction l as [|y l IH]; simpl; [reflexivity|].
  destruct (Less x y); [reflexivity|].
  rewrite IH. apply perm_swap.
Qed.

Lemma sort_Sort_Permutation (l : list A) : sort_Sort Less l ≡ₚ l.
Proof.
  induction l as [|x l IH]; simpl; [reflexivity|].
  rewrite insertLess_Permutation. by rewrite IH.
Qed.

Lemma sort_Sort_length (l : list A) : length (sort_Sort Less l) = length l.
Proof. apply Permutation_length, sort_Sort_Permutation. Qed.

Lemma insertLess_StronglySorted x (l : list A) :
  StronglySorted (notAfter Less) l -> StronglySorted (notAfter Less) (insertLess Less x l).
Proof.
  induction l as [|y l IH]; intros Hl; simpl.
  - repeat constructor.
  - apply StronglySorted_inv in Hl as [Hl Hy].
    destruct (Less x y) eqn:Hxy.
    + constructor; [by constructor|].
      constructor; [by apply notAfter_of_Less|].
      eapply Forall_impl; [exact Hy|]. intros z Hz.
      eapply notAfter_trans; [apply notAfter_of_Less|]; eauto.
    + constructor; [auto|].
      rewrite insertLess_Permutation. constructor; [exact Hxy|exact Hy].
Qed.

Lemma sort_Sort_StronglySorted (l : list A) :
  StronglySorted (notAfter Less) (sort_Sort Less l).
Proof.
  induction l as [|x l IH]; simpl; [constructor|].
  by apply insertLess_StronglySorted.
Qed.

(** Whatever algorithm [sort.Sort] runs, its result is this list. *)
Lemma sort_Sort_unique (l l' : list A) :
  l' ≡ₚ l -> Sorted (notAfter Less) l' -> l' = sort_Sort Less l.
Proof.
  intros Hperm Hsorted.
  apply (Sorted_unique (notAfter Less)); [exact Hsorted| |].
  - apply StronglySorted_Sorted, sort_Sort_StronglySorted.
  - by rewrite sort_Sort_Permutation.
Qed.
End SortFacts.

(** ** Counting entries *)

Section CountFacts.
Context {A : Type}.

Lemma countIf_app (p : A -> bool) (l1 l2 : list A) :
  countIf p (l1 ++ l2) = (countIf p l1 + countIf p l2)%nat.
Proof. induction l1 as [|x l1 IH]; simpl; [reflexivity|]. rewrite IH. lia. Qed.

Lemma countIf_Permutation (p : A -> bool) (l1 l2 : list A) :
  l1 ≡ₚ l2 -> countIf p l1 = countIf p l2.
Proof. induction 1; simpl; lia. Qed.

Lemma countIf_none (p : A -> bool) (l : list A) :
  (forall x, In x l -> p x = false) -> countIf p l = O.
Proof.
  induction l as [|x l IH]; intros Hp; simpl; [reflexivity|].
  rewrite (Hp x) by (left; reflexivity). rewrite IH; [reflexivity|].
  intros y Hy. apply Hp. by right.
Qed.

Lemma countIf_all (p : A -> bool) (l : list A) :
  (forall x, In x l -> p x = true) -> countIf p l = length l.
Proof.
  induction l as [|x l IH]; intros Hp; simpl; [reflexivity|].
  rewrite (Hp x) by (left; reflexivity). rewrite IH; [reflexivity|].
  intros y Hy. apply Hp. by right.
Qed.

Lemma countIf_le (p q : A -> bool) (l : list A) :
  (forall x, p x = true -> q x = true) -> (countIf p l <= countIf q l)%nat.
Proof.
  intros Hpq. induction l as [|x l IH]; simpl; [lia|].
  destruct (p x) eqn:Hp; [rewrite (Hpq x Hp); lia|]. destruct (q x); lia.
Qed.

Lemma countIf_lt (p q : A -> bool) (l : list A) b :
  (forall x, p x = true -> q x = true) ->
  In b l -> p b = false -> q b = true ->
  (countIf p l < countIf q l)%nat.
Proof.
  intros Hpq Hin Hpb Hqb. induction l as [|x l IH]; [destruct Hin|].
  simpl. destruct Hin as [->|Hin].
  - rewrite Hpb, Hqb. pose proof (countIf_le p q l Hpq). lia.
  - specialize (IH Hin). destruct (p x) eqn:Hp; [rewrite (Hpq x Hp); lia|].
    destruct (q x); lia.
Qed.
End CountFacts.

(** ** The rank of a present target *)

Section RankFacts.
Context {A : Type} (Less : A -> A -> bool) (isTarget : A -> bool).
Hypothesis Less_irrefl : forall a, Less a a = false.
Hypothesis Less_trans : forall a b c, Less a b = true -> Less b c = true -> Less a c = true.
Hypothesis Less_total : forall a b, Less a b = false -> Less b a = false -> a = b.

(** The target is absent: the loop runs to the end. *)
Lemma rankOf_absent (ranking : list A) :
  (forall x, In x ranking -> isTarget x = false) -> sliceLen ranking ->
  rankOf isTarget (sort_Sort Less ranking) = Z.of_nat (length ranking) + 1.
Proof.
  unfold sliceLen. intros Hno Hlen.
  rewrite rankOf_scanDown, scanDown_absent.
  - rewrite length_rev, sort_Sort_length. lia.
  - intros x Hx. apply Hno. apply in_rev in Hx.
    eapply Permutation_in; [apply sort_Sort_Permutation|exact Hx].
  - lia.
  - rewrite length_rev, sort_Sort_length. lia.
Qed.

(** The target is present: the loop stops within the slice. *)
Lemma rankOf_bounds (ranking : list A) :
  (exists x, In x ranking /\ isTarget x = true) -> sliceLen ranking ->
  1 <= rankOf isTarget (sort_Sort Less ranking) <= Z.of_nat (length ranking).
Proof.
  unfold sliceLen. intros [x [Hin Hx]] Hlen.
  destruct (first_target isTarget (rev (sort_Sort Less ranking)))
    as (pre & e & post & Hrev & He & Hpre).
  { exists x. split; [|exact Hx]. apply -> in_rev.
    eapply Permutation_in; [symmetry; apply sort_Sort_Permutation|exact Hin]. }
  assert (Hn : length ranking = (length pre + S (length post))%nat).
  { rewrite <- (sort_Sort_length Less), <- length_rev, Hrev, length_app. reflexivity. }
  rewrite rankOf_scanDown, Hrev, scanDown_found by (auto; lia). lia.
Qed.

(** The rank is one more than the number of entries sorted after the target's. *)
Lemma rankOf_above (ranking : list A) e :
  In e ranking -> isTarget e = true ->
  (forall x, In x ranking -> isTarget x = true -> x = e) ->
  sliceLen ranking ->
  rankOf isTarget (sort_Sort Less ranking) = 1 + above Less e ranking.
Proof.
  unfold sliceLen. intros Hin He Honly Hlen.
  pose proof (sort_Sort_Permutation Less ranking) as Hperm.
  destruct (first_target isTarget (rev (sort_Sort Less ranking)))
    as (pre & e' & post & Hrev & He' & Hpre).
  { exists e. split; [|exact He]. apply -> in_rev.
    eapply Permutation_in; [symmetry; exact Hperm|exact Hin]. }
  assert (Hsorted : sort_Sort Less ranking = rev post ++ e' :: rev pre).
  { rewrite <- (rev_involutive (sort_Sort Less ranking)), Hrev, rev_app_distr.
    simpl. by rewrite <- app_assoc. }
  assert (e' = e) as ->.
  { apply Honly; [|exact He'].
    eapply Permutation_in; [exact Hperm|]. rewrite Hsorted.
    apply in_or_app. right. by left. }
  assert (Hn : length ranking = (length pre + S (length post))%nat).
  { rewrite <- (sort_Sort_length Less), <- length_rev, Hrev, length_app. reflexivity. }
  rewrite rankOf_scanDown, Hrev, scanDown_found by (auto; lia).
  unfold above. rewrite <- (countIf_Permutation _ _ _ Hperm), Hsorted.
  pose proof (sort_Sort_StronglySorted Less Less_irrefl Less_trans Less_total ranking)
    as Hss.
  rewrite Hsorted in Hss. apply StronglySorted_app in Hss as (Hlow & _ & Hhigh).
  apply StronglySorted_cons in Hhigh as [Hhigh _]. rewrite Forall_forall in Hhigh.
  rewrite countIf_app. simpl. rewrite Less_irrefl.
  rewrite countIf_none, countIf_all, length_rev; [lia| |].
  - intros x Hx. apply (notAfter_strict Less Less_total).
    + apply Hhigh. by apply list_elem_of_In.
    + intros <-. apply in_rev in Hx. rewrite (Hpre _ Hx) in He. discriminate.
  - intros x Hx. apply (Hlow x e).
    + by apply list_elem_of_In.
    + apply list_elem_of_In. by left.
Qed.
End RankFacts.

(** ** The two [Less] methods are strict total orders *)

Lemma LivestreamRanking_Less_irrefl a : LivestreamRanking_Less a a = false.
Proof. unfold LivestreamRanking_Less. rewrite Z.eqb_refl. apply Z.ltb_irrefl. Qed.

Lemma LivestreamRanking_Less_trans a b c :
  LivestreamRanking_Less a b = true -> LivestreamRanking_Less b c = true ->
  LivestreamRanking_Less a c = true.
Proof.
  unfold LivestreamRanking_Less. destruct a as [ia sa], b as [ib sb], c as [ic sc]; simpl.
  destruct (Z.eqb_spec sa sb), (Z.eqb_spec sb sc), (Z.eqb_spec sa sc); lia.
Qed.

Lemma LivestreamRanking_Less_total a b :
  LivestreamRanking_Less a b = false -> LivestreamRanking_Less b a = false -> a = b.
Proof.
  unfold LivestreamRanking_Less. destruct a as [ia sa], b as [ib sb]; simpl.
  destruct (Z.eqb_spec sa sb), (Z.eqb_spec sb sa); intros; try lia.
  f_equal; lia.
Qed.

Lemma Ascii_compare_refl a : Ascii.compare a a = Eq.
Proof. unfold Ascii.compare. apply N.compare_refl. Qed.

Lemma String_compare_refl s : String.compare s s = Eq.
Proof. induction s as [|a s IH]; simpl; [reflexivity|]. by rewrite Ascii_compare_refl. Qed.

Lemma String_compare_Lt_trans s1 s2 s3 :
  String.compare s1 s2 = Lt -> String.compare s2 s3 = Lt -> String.compare s1 s3 = Lt.
Proof.
  revert s2 s3. induction s1 as [|a1 s1 IH]; intros [|a2 s2] [|a3 s3]; simpl; try congruence.
  destruct (Ascii.compare a1 a2) eqn:H12; try discriminate;
    destruct (Ascii.compare a2 a3) eqn:H23; try discriminate; intros Hs12 Hs23.
  - apply Ascii.compare_eq_iff in H12, H23. subst. rewrite Ascii_compare_refl. eauto.
  - apply Ascii.compare_eq_iff in H12. subst. by rewrite H23.
  - apply Ascii.compare_eq_iff in H23. subst. by rewrite H12.
  - unfold Ascii.compare in *. rewrite N.compare_lt_iff in H12, H23.
    assert (Hlt : (N_of_ascii a1 < N_of_ascii a3)%N) by lia.
    apply N.compare_lt_iff in Hlt. by rewrite Hlt.
Qed.

Lemma String_ltb_irrefl s : String.ltb s s = false.
Proof. unfold String.ltb. by rewrite String_compare_refl. Qed.

Lemma String_ltb_trans s1 s2 s3 :
  String.ltb s1 s2 = true -> String.ltb s2 s3 = true -> String.ltb s1 s3 = true.
Proof.
  unfold String.ltb.
  destruct (String.compare s1 s2) eqn:H12; try discriminate.
  destruct (String.compare s2 s3) eqn:H23; try discriminate.
  by rewrite (String_compare_Lt_trans _ _ _ H12 H23).
Qed.

Lemma String_ltb_total s1 s2 :
  String.ltb s1 s2 = false -> String.ltb s2 s1 = false -> s1 = s2.
Proof.
  unfold String.ltb. rewrite (String.compare_antisym s2 s1).
  destruct (String.compare s1 s2) eqn:H12; simpl; try discriminate.
  intros _ _. by apply String.compare_eq_iff.
Qed.

Lemma UserRanking_Less_irrefl a : UserRanking_Less a a = false.
Proof. unfold UserRanking_Less. rewrite Z.eqb_refl. apply String_ltb_irrefl. Qed.

Lemma UserRanking_Less_trans a b c :
  UserRanking_Less a b = true -> UserRanking_Less b c = true ->
  UserRanking_Less a c = true.
Proof.
  unfold UserRanking_Less. destruct a as [na sa], b as [nb sb], c as [nc sc]; simpl.
  destruct (Z.eqb_spec sa sb), (Z.eqb_spec sb sc), (Z.eqb_spec sa sc);
    try lia; try (intros; exfalso; lia).
  apply String_ltb_trans.
Qed.

Lemma UserRanking_Less_total a b :
  UserRanking_Less a b = false -> UserRanking_Less b a = false -> a = b.
Proof.
  unfold UserRanking_Less. destruct a as [na sa], b as [nb sb]; simpl.
  destruct (Z.eqb_spec sa sb), (Z.eqb_spec sb sa); intros H1 H2; try lia.
  f_equal; [by apply String_ltb_total|assumption].
Qed.

(** The model of [sort.Sort] does not depend on the algorithm. *)
Lemma LivestreamRanking_sort_unique (ranking sorted : LivestreamRanking) :
  sorted ≡ₚ ranking -> Sorted (notAfter LivestreamRanking_Less) sorted ->
  sorted = sort_Sort LivestreamRanking_Less ranking.
Proof.
  apply sort_Sort_unique.
  - apply LivestreamRanking_Less_irrefl.
  - apply LivestreamRanking_Less_trans.
  - apply LivestreamRanking_Less_total.
Qed.

Lemma UserRanking_sort_unique (ranking sorted : UserRanking) :
  sorted ≡ₚ ranking -> Sorted (notAfter UserRanking_Less) sorted ->
  sorted = sort_Sort UserRanking_Less ranking.
Proof.
  apply sort_Sort_unique.
  - apply UserRanking_Less_irrefl.
  - apply UserRanking_Less_trans.
  - apply UserRanking_Less_total.
Qed.

(** ** Score sets with one record per entity *)

Lemma NoDup_map_In_inj {A B : Type} (f : A -> B) (l : list A) x y :
  NoDup (map f l) -> In x l -> In y l -> f x = f y -> x = y.
Proof.
  induction l as [|z l IH]; intros Hnd Hx Hy Hf; [destruct Hx|].
  simpl in Hnd. apply NoDup_cons in Hnd as [Hz Hnd].
  destruct Hx as [->|Hx], Hy as [->|Hy]; auto.
  - exfalso. apply Hz. rewrite Hf. apply list_elem_of_In. by apply in_map.
  - exfalso. apply Hz. rewrite <- Hf. apply list_elem_of_In. by apply in_map.
Qed.

Lemma NoDup_of_map {A B : Type} (f : A -> B) (l : list A) : NoDup (map f l) -> NoDup l.
Proof.
  induction l as [|z l IH]; intros Hnd; [constructor|].
  simpl in Hnd. apply NoDup_cons in Hnd as [Hz Hnd].
  apply NoDup_cons. split; [|auto].
  intros Hin. apply Hz. apply list_elem_of_In, in_map. by apply list_elem_of_In.
Qed.

Lemma above_none {A : Type} (Less : A -> A -> bool) e (l : list A) :
  (forall x, In x l -> Less e x = false) -> above Less e l = 0.
Proof. intros H. unfold above. by rewrite countIf_none. Qed.

Lemma above_all_others {A : Type} (Less : A -> A -> bool) e (l : list A) :
  NoDup l -> In e l -> Less e e = false ->
  (forall x, In x l -> x <> e -> Less e x = true) ->
  above Less e l = Z.of_nat (length l) - 1.
Proof.
  intros Hnd Hin Hee Hall. unfold above.
  apply in_split in Hin as (l1 & l2 & ->).
  apply NoDup_app in Hnd as (Hnd1 & Hdisj & Hnd2).
  apply NoDup_cons in Hnd2 as [He2 _].
  rewrite countIf_app, length_app. simpl. rewrite Hee.
  rewrite !countIf_all; [lia| |].
  - intros x Hx. apply Hall; [apply in_or_app; right; by right|].
    intros ->. apply He2. by apply list_elem_of_In.
  - intros x Hx. apply Hall; [apply in_or_app; by left|].
    intros ->. apply (Hdisj e); [by apply list_elem_of_In|]. by left.
Qed.

Lemma livestreamRank_above (ranking : LivestreamRanking) e :
  distinctLivestreams ranking -> sliceLen ranking -> In e ranking ->
  livestreamRank ranking (LivestreamRankingEntry.LivestreamID e)
  = 1 + above LivestreamRanking_Less e ranking.
Proof.
  intros Hnd Hlen Hin. unfold livestreamRank.
  apply (rankOf_above _ _ LivestreamRanking_Less_irrefl LivestreamRanking_Less_trans
           LivestreamRanking_Less_total); auto.
  - apply Z.eqb_refl.
  - intros x Hx Heq. apply Z.eqb_eq in Heq.
    by apply (NoDup_map_In_inj LivestreamRankingEntry.LivestreamID ranking).
Qed.

Lemma userRank_above (ranking : UserRanking) e :
  distinctUsers ranking -> sliceLen ranking -> In e ranking ->
  userRank ranking (UserRankingEntry.Username e) = 1 + above UserRanking_Less e ranking.
Proof.
  intros Hnd Hlen Hin. unfold userRank.
  apply (rankOf_above _ _ UserRanking_Less_irrefl UserRanking_Less_trans
           UserRanking_Less_total); auto.
  - apply String.eqb_refl.
  - intros x Hx Heq. apply String.eqb_eq in Heq.
    by apply (NoDup_map_In_inj UserRankingEntry.Username ranking).
Qed.

(** Between two entries of which [a] sorts before [b], more entries sort after [a]. *)
Lemma above_lt {A : Type} (Less : A -> A -> bool) (l : list A) a b :
  (forall x, Less x x = false) ->
  (forall x y z, Less x y = true -> Less y z = true -> Less x z = true) ->
  In b l -> Less a b = true -> above Less b l < above Less a l.
Proof.
  intros Hirr Htrans Hin Hab. unfold above. apply inj_lt.
  apply (countIf_lt _ _ _ b); auto.
  intros x Hbx. eapply Htrans; eauto.
Qed.

(** * The ranking claims *)

(** C1, as stated: on the scores (1,10), (2,30), (3,10) the rank of id 3
    would be 3.  The code does not return 3. *)
Lemma scenario_rank_is_not_three : livestreamRank scenarioScores 3 <> 3.
Proof. vm_compute. discriminate. Qed.

(** C1, amended: on the scores (1,10), (2,30), (3,10) the ascending
    sort with id tie-break gives (1,10), (3,10), (2,30), and the scan
    from the highest-scoring end, counting from 1, finds id 3 at rank 2. *)
Theorem scenario_rank_is_two :
  sort_Sort LivestreamRanking_Less scenarioScores
  = [LivestreamRankingEntry.mk 1 10; LivestreamRankingEntry.mk 3 10;
     LivestreamRankingEntry.mk 2 30]
  /\ livestreamRank scenarioScores 3 = 2.
Proof. split; vm_compute; reflexivity. Qed.

(** C2, as stated: the rank would be the position counted from the
    lowest score upward.  On the scores (1,10), (2,30) the lowest-scored
    id 1 has position 1 from the lowest end, and the code ranks it 2. *)
Lemma rank_is_not_counted_from_lowest :
  livestreamRankFromLowest twoScores 1 = 1
  /\ livestreamRank twoScores 1 = 2
  /\ livestreamRank twoScores 1 <> livestreamRankFromLowest twoScores 1.
Proof. repeat split; vm_compute; (reflexivity || discriminate). Qed.

(** C2, amended: the rank is the 1-based position of the target counted
    from the highest score downward: one more than the number of records
    that the order (score, then identifier) puts after the target's, so
    that rank 1 goes to the highest-placed record.  Livestreams and users. *)
Theorem rank_counts_from_highest :
  (forall (ranking : LivestreamRanking) e,
      distinctLivestreams ranking -> sliceLen ranking -> In e ranking ->
      livestreamRank ranking (LivestreamRankingEntry.LivestreamID e)
      = 1 + above LivestreamRanking_Less e ranking)
  /\ (forall (ranking : UserRanking) e,
      distinctUsers ranking -> sliceLen ranking -> In e ranking ->
      userRank ranking (UserRankingEntry.Username e)
      = 1 + above UserRanking_Less e ranking).
Proof. split; [apply livestreamRank_above|apply userRank_above]. Qed.

(** C3: when the target occurs in no record, the loop increments once
    per record and the computation yields |S| + 1, an ordinary rank
    value.  Livestreams and users. *)
Theorem rank_of_absent_target :
  (forall (ranking : LivestreamRanking) livestreamID,
      sliceLen ranking ->
      (forall e, In e ranking -> LivestreamRankingEntry.LivestreamID e <> livestreamID) ->
      livestreamRank ranking livestreamID = Z.of_nat (length ranking) + 1)
  /\ (forall (ranking : UserRanking) username,
      sliceLen ranking ->
      (forall e, In e ranking -> UserRankingEntry.Username e <> username) ->
      userRank ranking username = Z.of_nat (length ranking) + 1).
Proof.
  split; intros ranking t Hlen Hno.
  - apply rankOf_absent; [|exact Hlen].
    intros x Hx. apply Z.eqb_neq. by apply Hno.
  - apply rankOf_absent; [|exact Hlen].
    intros x Hx. apply String.eqb_neq. by apply Hno.
Qed.

(** C4: of two records with equal score, the one with the smaller
    identifier (numerically for livestream ids, bytewise for user names)
    receives the larger rank number. *)
Theorem tie_smaller_id_ranks_lower :
  (forall (ranking : LivestreamRanking) a b,
      distinctLivestreams ranking -> sliceLen ranking ->
      In a ranking -> In b ranking ->
      LivestreamRankingEntry.Score a = LivestreamRankingEntry.Score b ->
      LivestreamRankingEntry.LivestreamID a < LivestreamRankingEntry.LivestreamID b ->
      livestreamRank ranking (LivestreamRankingEntry.LivestreamID b)
      < livestreamRank ranking (LivestreamRankingEntry.LivestreamID a))
  /\ (forall (ranking : UserRanking) a b,
      distinctUsers ranking -> sliceLen ranking ->
      In a ranking -> In b ranking ->
      UserRankingEntry.Score a = UserRankingEntry.Score b ->
      String.ltb (UserRankingEntry.Username a) (UserRankingEntry.Username b) = true ->
      userRank ranking (UserRankingEntry.Username b)
      < userRank ranking (UserRankingEntry.Username a)).
Proof.
  split; intros ranking a b Hnd Hlen Ha Hb Hscore Hid.
  - rewrite !livestreamRank_above by assumption.
    apply Z.add_lt_mono_l.
    apply above_lt; auto using LivestreamRanking_Less_irrefl.
    + apply LivestreamRanking_Less_trans.
    + unfold LivestreamRanking_Less. rewrite Hscore, Z.eqb_refl. by apply Z.ltb_lt.
  - rewrite !userRank_above by assumption.
    apply Z.add_lt_mono_l.
    apply above_lt; auto using UserRanking_Less_irrefl.
    + apply UserRanking_Less_trans.
    + unfold UserRanking_Less. by rewrite Hscore, Z.eqb_refl.
Qed.

(** C5: for a target that occurs in the score set, the rank lies between
    1 and the number of records. *)
Theorem rank_within_bounds :
  (forall (ranking : LivestreamRanking) livestreamID,
      sliceLen ranking ->
      (exists e, In e ranking /\ LivestreamRankingEntry.LivestreamID e = livestreamID) ->
      1 <= livestreamRank ranking livestreamID <= Z.of_nat (length ranking))
  /\ (forall (ranking : UserRanking) username,
      sliceLen ranking ->
      (exists e, In e ranking /\ UserRankingEntry.Username e = username) ->
      1 <= userRank ranking username <= Z.of_nat (length ranking)).
Proof.
  split; intros ranking t Hlen (e & Hin & He).
  - apply rankOf_bounds; [|exact Hlen].
    exists e. split; [exact Hin|]. by apply Z.eqb_eq.
  - apply rankOf_bounds; [|exact Hlen].
    exists e. split; [exact Hin|]. by apply String.eqb_eq.
Qed.

(** C6: a target whose score is strictly above every other record's has
    rank 1, and one whose score is strictly below every other record's
    has rank |S|. *)
Theorem rank_of_extreme_scores :
  (forall (ranking : LivestreamRanking) e,
      distinctLivestreams ranking -> sliceLen ranking -> In e ranking ->
      ((forall r, In r ranking -> r <> e ->
                  LivestreamRankingEntry.Score r < LivestreamRankingEntry.Score e) ->
       livestreamRank ranking (LivestreamRankingEntry.LivestreamID e) = 1)
      /\ ((forall r, In r ranking -> r <> e ->
                     LivestreamRankingEntry.Score e < LivestreamRankingEntry.Score r) ->
          livestreamRank ranking (LivestreamRankingEntry.LivestreamID e)
          = Z.of_nat (length ranking)))
  /\ (forall (ranking : UserRanking) e,
      distinctUsers ranking -> sliceLen ranking -> In e ranking ->
      ((forall r, In r ranking -> r <> e ->
                  UserRankingEntry.Score r < UserRankingEntry.Score e) ->
       userRank ranking (UserRankingEntry.Username e) = 1)
      /\ ((forall r, In r ranking -> r <> e ->
                     UserRankingEntry.Score e < UserRankingEntry.Score r) ->
          userRank ranking (UserRankingEntry.Username e) = Z.of_nat (length ranking))).
Proof.
  split; intros ranking e Hnd Hlen Hin; split; intros Hext.
  - rewrite livestreamRank_above by assumption. rewrite above_none; [reflexivity|].
    intros x Hx. destruct (LivestreamRanking_Less e x) eqn:Hless; [exfalso|reflexivity].
    assert (Hne : x <> e).
    { intros ->. rewrite LivestreamRanking_Less_irrefl in Hless. discriminate. }
    specialize (Hext x Hx Hne). unfold LivestreamRanking_Less in Hless.
    destruct (Z.eqb_spec (LivestreamRankingEntry.Score e) (LivestreamRankingEntry.Score x));
      [lia|]. apply Z.ltb_lt in Hless. lia.
  - rewrite livestreamRank_above by assumption.
    rewrite above_all_others; [lia| |assumption|apply LivestreamRanking_Less_irrefl|].
    { eapply NoDup_of_map, Hnd. }
    intros x Hx Hne. specialize (Hext x Hx Hne). unfold LivestreamRanking_Less.
    destruct (Z.eqb_spec (LivestreamRankingEntry.Score e) (LivestreamRankingEntry.Score x));
      [lia|]. by apply Z.ltb_lt.
  - rewrite userRank_above by assumption. rewrite above_none; [reflexivity|].
    intros x Hx. destruct (UserRanking_Less e x) eqn:Hless; [exfalso|reflexivity].
    assert (Hne : x <> e).
    { intros ->. rewrite UserRanking_Less_irrefl in Hless. discriminate. }
    specialize (Hext x Hx Hne). unfold UserRanking_Less in Hless.
    destruct (Z.eqb_spec (UserRankingEntry.Score e) (UserRankingEntry.Score x));
      [lia|]. apply Z.ltb_lt in Hless. lia.
  - rewrite userRank_above by assumption.
    rewrite above_all_others; [lia| |assumption|apply UserRanking_Less_irrefl|].
    { eapply NoDup_of_map, Hnd. }
    intros x Hx Hne. specialize (Hext x Hx Hne). unfold UserRanking_Less.
    destruct (Z.eqb_spec (UserRankingEntry.Score e) (UserRankingEntry.Score x));
      [lia|]. by apply Z.ltb_lt.
Qed.

(** ** The ranking claims at the sample data *)

Ltac distinct_ids :=
  unfold distinctLivestreams, distinctUsers;
  apply (bool_decide_unpack _); vm_compute; exact I.

Ltac short_slice := unfold sliceLen; vm_compute; reflexivity.

Ltac member := simpl; tauto.

Lemma rank_counts_from_highest_witness :
  livestreamRank scenarioScores 3
  = 1 + above LivestreamRanking_Less (LivestreamRankingEntry.mk 3 10) scenarioScores
  /\ userRank scenarioUsers "carol"
     = 1 + above UserRanking_Less (UserRankingEntry.mk "carol" 10) scenarioUsers.
Proof.
  split.
  - apply (proj1 rank_counts_from_highest scenarioScores (LivestreamRankingEntry.mk 3 10));
      [distinct_ids|short_slice|member].
  - apply (proj2 rank_counts_from_highest scenarioUsers (UserRankingEntry.mk "carol" 10));
      [distinct_ids|short_slice|member].
Defined.

Lemma rank_of_absent_target_witness :
  livestreamRank scenarioScores 7 = 4 /\ userRank scenarioUsers "dave" = 4.
Proof.
  split.
  - apply (proj1 rank_of_absent_target scenarioScores 7); [short_slice|].
    intros e [<-|[<-|[<-|[]]]]; simpl; lia.
  - apply (proj2 rank_of_absent_target scenarioUsers "dave"%string); [short_slice|].
    intros e [<-|[<-|[<-|[]]]]; simpl; discriminate.
Defined.

Lemma tie_smaller_id_ranks_lower_witness :
  livestreamRank scenarioScores 3 < livestreamRank scenarioScores 1
  /\ userRank scenarioUsers "carol" < userRank scenarioUsers "alice".
Proof.
  split.
  - apply (proj1 tie_smaller_id_ranks_lower scenarioScores
             (LivestreamRankingEntry.mk 1 10) (LivestreamRankingEntry.mk 3 10));
      [distinct_ids|short_slice|member|member|reflexivity|reflexivity].
  - apply (proj2 tie_smaller_id_ranks_lower scenarioUsers
             (UserRankingEntry.mk "alice" 10) (UserRankingEntry.mk "carol" 10));
      [distinct_ids|short_slice|member|member|reflexivity|reflexivity].
Defined.

Lemma rank_within_bounds_witness :
  1 <= livestreamRank scenarioScores 3 <= 3 /\ 1 <= userRank scenarioUsers "bob" <= 3.
Proof.
  split.
  - apply (proj1 rank_within_bounds scenarioScores 3); [short_slice|].
    exists (LivestreamRankingEntry.mk 3 10). split; [member|reflexivity].
  - apply (proj2 rank_within_bounds scenarioUsers "bob"%string); [short_slice|].
    exists (UserRankingEntry.mk "bob" 30). split; [member|reflexivity].
Defined.

Lemma rank_of_extreme_scores_witness :
  livestreamRank scenarioScores 2 = 1 /\ livestreamRank twoScores 1 = 2
  /\ userRank scenarioUsers "bob" = 1.
Proof.
  split; [|split].
  - apply (proj1 rank_of_extreme_scores scenarioScores (LivestreamRankingEntry.mk 2 30));
      [distinct_ids|short_slice|member|].
    intros r [<-|[<-|[<-|[]]]] Hne; simpl; (lia || congruence).
  - apply (proj1 rank_of_extreme_scores twoScores (LivestreamRankingEntry.mk 1 10));
      [distinct_ids|short_slice|member|].
    intros r [<-|[<-|[]]] Hne; simpl; (lia || congruence).
  - apply (proj2 rank_of_extreme_scores scenarioUsers (UserRankingEntry.mk "bob" 30));
      [distinct_ids|short_slice|member|].
    intros r [<-|[<-|[<-|[]]]] Hne; simpl; (lia || congruence).
Defined.

(** * The user statistics handler *)

Example getUserStatisticsHandler_sample :
  getUserStatisticsHandler sampleStatsStore "alice"
  = Ok (200, UserStatistics.mk 1 0 3 2 100 "heart").
Proof. vm_compute. reflexivity. Qed.

Lemma sumViewers_no_livestreams db viewersCount :
  sumViewers db viewersCount [] = Ok viewersCount.
Proof. reflexivity. Qed.

Ltac step_handler H :=
  match type of H with
  | context [match ?x with _ => _ end] => destruct x eqn:?; try discriminate H
  end.

(** C9: whenever the user statistics handler replies with statistics,
    their [ViewersCount] is 0, whatever the data store answers: the
    slice of livestreams that the summation ranges over is declared and
    never filled. *)
Theorem user_statistics_viewers_count_is_zero db username status stats :
  getUserStatisticsHandler db username = Ok (status, stats) ->
  UserStatistics.ViewersCount stats = 0.
Proof.
  unfold getUserStatisticsHandler. rewrite sumViewers_no_livestreams.
  unfold mbind, outcome_bind, orInternalError, orZeroOnNoRows, NewHTTPError.
  intros H. repeat step_handler H.
  all: inversion H; reflexivity.
Qed.

Lemma user_statistics_viewers_count_is_zero_witness :
  exists status stats,
    getUserStatisticsHandler sampleStatsStore "alice" = Ok (status, stats)
    /\ StatsStore.countViewersHistory sampleStatsStore 11 = inr 5
    /\ UserStatistics.ViewersCount stats = 0.
Proof.
  exists 200, (UserStatistics.mk 1 0 3 2 100 "heart").
  split; [vm_compute; reflexivity|]. split; [reflexivity|].
  apply (user_statistics_viewers_count_is_zero sampleStatsStore "alice"%string 200).
  vm_compute. reflexivity.
Defined.

(** * The tag cache *)

Lemma GetTagByID_found c id tag :
  GetTagByID c id = (tag, true) <-> TagCache.tags c !! id = Some tag.
Proof.
  unfold GetTagByID. destruct (TagCache.tags c !! id) as [t|]; split; intros H;
    try discriminate; congruence.
Qed.

Lemma GetTagIDByName_found c name id :
  GetTagIDByName c name = (id, true) <-> TagCache.nameToID c !! name = Some id.
Proof.
  unfold GetTagIDByName. destruct (TagCache.nameToID c !! name) as [i|]; split; intros H;
    try discriminate; congruence.
Qed.

(** The id index after the loop: the last row of an id wins, other ids are kept. *)
Lemma loadTags_tags (rows : list TagModel.t) c id :
  TagCache.tags (loadTags c rows) !! id
  = match lastRow (fun row => TagModel.ID row =? id) rows with
    | Some row => Some row
    | None => TagCache.tags c !! id
    end.
Proof.
  revert c. induction rows as [|row rows IH]; intros c; simpl; [reflexivity|].
  rewrite IH. simpl.
  destruct (lastRow (fun row0 => TagModel.ID row0 =? id) rows); [reflexivity|].
  destruct (Z.eqb_spec (TagModel.ID row) id) as [<-|Hne].
  - apply lookup_insert_eq.
  - by apply lookup_insert_ne.
Qed.

(** The name index after the loop. *)
Lemma loadTags_nameToID (rows : list TagModel.t) c name :
  TagCache.nameToID (loadTags c rows) !! name
  = match lastRow (fun row => String.eqb (TagModel.Name row) name) rows with
    | Some row => Some (TagModel.ID row)
    | None => TagCache.nameToID c !! name
    end.
Proof.
  revert c. induction rows as [|row rows IH]; intros c; simpl; [reflexivity|].
  rewrite IH. simpl.
  destruct (lastRow (fun row0 => String.eqb (TagModel.Name row0) name) rows);
    [reflexivity|].
  destruct (String.eqb_spec (TagModel.Name row) name) as [<-|Hne].
  - apply lookup_insert_eq.
  - by apply lookup_insert_ne.
Qed.

Lemma lastRow_Some p (rows : list TagModel.t) row :
  lastRow p rows = Some row -> In row rows /\ p row = true.
Proof.
  induction rows as [|r rows IH]; simpl; [discriminate|].
  destruct (lastRow p rows) as [later|].
  - intros [= <-]. destruct IH as [Hin Hp]; [reflexivity|]. auto.
  - destruct (p r) eqn:Hp; [|discriminate]. intros [= <-]. auto.
Qed.

Lemma lastRow_None p (rows : list TagModel.t) :
  (forall row, In row rows -> p row = false) -> lastRow p rows = None.
Proof.
  induction rows as [|r rows IH]; intros Hno; simpl; [reflexivity|].
  rewrite IH by (intros row Hrow; apply Hno; by right).
  by rewrite (Hno r) by (by left).
Qed.

Lemma initTagCache_success db c c' :
  initTagCache db c = (None, c') ->
  exists rows, TagStore.selectTags db = inr rows /\ c' = loadTags c rows.
Proof.
  unfold initTagCache.
  destruct (TagStore.BeginTxx db); [discriminate|].
  destruct (TagStore.selectTags db) as [err|rows]; [discriminate|].
  destruct (TagStore.Commit db); [discriminate|].
  intros [= _ <-]. eauto.
Qed.

Lemma loadTags_consistent (rows : list TagModel.t) c :
  nameIndexConsistent c -> nameIndexConsistent (loadTags c rows).
Proof.
  revert c. induction rows as [|row rows IH]; intros c Hc; simpl; [exact Hc|].
  apply IH. intros name id Hname.
  apply GetTagIDByName_found in Hname. simpl in Hname.
  destruct (decide (TagModel.Name row = name)) as [<-|Hne].
  - rewrite lookup_insert_eq in Hname. injection Hname as <-.
    exists row. split; [|reflexivity].
    apply GetTagByID_found. simpl. apply lookup_insert_eq.
  - rewrite lookup_insert_ne in Hname by exact Hne.
    apply GetTagIDByName_found in Hname. destruct (Hc _ _ Hname) as (tag & Htag & Hid).
    destruct (decide (TagModel.ID row = id)) as [Heq|Hneq].
    + exists row. split; [|exact Heq].
      apply GetTagByID_found. simpl. rewrite Heq. apply lookup_insert_eq.
    + exists tag. split; [|exact Hid].
      apply GetTagByID_found. simpl. rewrite lookup_insert_ne by exact Hneq.
      by apply GetTagByID_found.
Qed.

(** C7, as stated: a successful initialization would leave exactly the
    entries derived from the rows read.  A cache that was loaded with
    the row (9, "old") and is then initialized, successfully, from the
    rows (1, "a"), (2, "b") still answers for the id 9 and the name
    "old", which occur in none of the rows read. *)
Lemma reload_keeps_previous_entries :
  let before := snd (initTagCache (tagStoreOf oldRows) NewTagCache) in
  let after := initTagCache (tagStoreOf newRows) before in
  fst after = None
  /\ ~ In 9 (map TagModel.ID newRows)
  /\ GetTagByID (snd after) 9 = (TagModel.mk 9 "old", true)
  /\ ~ In "old"%string (map TagModel.Name newRows)
  /\ GetTagIDByName (snd after) "old" = (9, true).
Proof.
  simpl. repeat split; try (vm_compute; reflexivity).
  - intros [H|[H|[]]]; discriminate H.
  - intros [H|[H|[]]]; discriminate H.
Qed.

(** C7, amended: a successful initialization with table rows R merges
    the entries derived from R into the cache.  An id or name that
    occurs in R is mapped as the last such row says, every other id or
    name answers as before the call; started from the freshly
    constructed cache, [GetTagByID] and [GetTagIDByName] therefore
    return found = false for the ids and names not present in R. *)
Theorem initTagCache_merges_rows db c c' rows :
  TagStore.selectTags db = inr rows ->
  initTagCache db c = (None, c') ->
  (forall id,
      GetTagByID c' id
      = match lastRow (fun row => TagModel.ID row =? id) rows with
        | Some row => (row, true)
        | None => GetTagByID c id
        end)
  /\ (forall name,
      GetTagIDByName c' name
      = match lastRow (fun row => String.eqb (TagModel.Name row) name) rows with
        | Some row => (TagModel.ID row, true)
        | None => GetTagIDByName c name
        end)
  /\ (c = NewTagCache ->
      (forall id, ~ In id (map TagModel.ID rows) -> snd (GetTagByID c' id) = false)
      /\ (forall name, ~ In name (map TagModel.Name rows) ->
                       snd (GetTagIDByName c' name) = false)).
Proof.
  intros Hrows Hinit.
  apply initTagCache_success in Hinit as (rows' & Hrows' & ->).
  rewrite Hrows in Hrows'. injection Hrows' as <-.
  assert (Hid : forall id,
      GetTagByID (loadTags c rows) id
      = match lastRow (fun row => TagModel.ID row =? id) rows with
        | Some row => (row, true)
        | None => GetTagByID c id
        end).
  { intros id. unfold GetTagByID. rewrite loadTags_tags.
    by destruct (lastRow (fun row => TagModel.ID row =? id) rows). }
  assert (Hname : forall name,
      GetTagIDByName (loadTags c rows) name
      = match lastRow (fun row => String.eqb (TagModel.Name row) name) rows with
        | Some row => (TagModel.ID row, true)
        | None => GetTagIDByName c name
        end).
  { intros name. unfold GetTagIDByName. rewrite loadTags_nameToID.
    by destruct (lastRow (fun row => String.eqb (TagModel.Name row) name) rows). }
  split; [exact Hid|]. split; [exact Hname|].
  intros ->. split.
  - intros id Hno. rewrite Hid, lastRow_None; [reflexivity|].
    intros row Hrow. apply Z.eqb_neq. intros Heq. apply Hno.
    rewrite <- Heq. by apply in_map.
  - intros name Hno. rewrite Hname, lastRow_None; [reflexivity|].
    intros row Hrow. apply String.eqb_neq. intros Heq. apply Hno.
    rewrite <- Heq. by apply in_map.
Qed.

Lemma initTagCache_merges_rows_witness :
  GetTagByID (loadTags NewTagCache newRows) 1 = (TagModel.mk 1 "a", true)
  /\ GetTagIDByName (loadTags NewTagCache newRows) "b" = (2, true)
  /\ snd (GetTagByID (loadTags NewTagCache newRows) 9) = false
  /\ snd (GetTagIDByName (loadTags NewTagCache newRows) "c") = false.
Proof.
  destruct (initTagCache_merges_rows (tagStoreOf newRows) NewTagCache
              (loadTags NewTagCache newRows) newRows eq_refl eq_refl)
    as (Hid & Hname & Hfresh).
  destruct (Hfresh eq_refl) as [Hnoid Hnoname].
  split; [exact (Hid 1)|]. split; [exact (Hname "b"%string)|]. split.
  - apply Hnoid. intros [H|[H|[]]]; discriminate H.
  - apply Hnoname. intros [H|[H|[]]]; discriminate H.
Defined.

(** C8: when the bulk read fails, the initialization returns an error
    and the cache, with both its indexes, is the one before the call. *)
Theorem initTagCache_read_failure db c err :
  TagStore.selectTags db = inl err ->
  exists e, fst (initTagCache db c) = Some e /\ snd (initTagCache db c) = c.
Proof.
  intros Hread. unfold initTagCache. rewrite Hread.
  destruct (TagStore.BeginTxx db) as [e|]; simpl; eauto.
Qed.

Lemma initTagCache_read_failure_witness :
  exists e, fst (initTagCache failingTagStore (loadTags NewTagCache oldRows)) = Some e
            /\ snd (initTagCache failingTagStore (loadTags NewTagCache oldRows))
               = loadTags NewTagCache oldRows.
Proof.
  apply (initTagCache_read_failure failingTagStore (loadTags NewTagCache oldRows)
           (ErrOther "connection lost")).
  reflexivity.
Defined.

(** C10: the freshly constructed cache satisfies, and every run of the
    initialization preserves, that an id returned by [GetTagIDByName]
    with found = true is answered by [GetTagByID] with found = true and
    a tag carrying that id. *)
Theorem tag_cache_name_index_consistent :
  nameIndexConsistent NewTagCache
  /\ (forall db c, nameIndexConsistent c ->
                   nameIndexConsistent (snd (initTagCache db c))).
Proof.
  split.
  - intros name id H. apply GetTagIDByName_found in H. simpl in H.
    rewrite lookup_empty in H. discriminate.
  - intros db c Hc. unfold initTagCache.
    destruct (TagStore.BeginTxx db); [exact Hc|].
    destruct (TagStore.selectTags db) as [err|rows]; [exact Hc|].
    destruct (TagStore.Commit db); [exact Hc|].
    simpl. by apply loadTags_consistent.
Qed.

Lemma tag_cache_name_index_consistent_witness :
  nameIndexConsistent (snd (initTagCache (tagStoreOf newRows)
                              (snd (initTagCache (tagStoreOf oldRows) NewTagCache)))).
Proof.
  apply (proj2 tag_cache_name_index_consistent (tagStoreOf newRows)).
  apply (proj2 tag_cache_name_index_consistent (tagStoreOf oldRows)).
  exact (proj1 tag_cache_name_index_consistent).
Defined.

(** * Further properties of the ranking *)

Section SortOrderFacts.
Context {A : Type} (Less : A -> A -> bool).
Hypothesis Less_irrefl : forall a, Less a a = false.
Hypothesis Less_trans : forall a b c, Less a b = true -> Less b c = true -> Less a c = true.
Hypothesis Less_total : forall a b, Less a b = false -> Less b a = false -> a = b.

Lemma sort_Sort_Permutation_eq (l l' : list A) :
  l ≡ₚ l' -> sort_Sort Less l = sort_Sort Less l'.
Proof.
  intros Hperm.
  apply (sort_Sort_unique Less Less_irrefl Less_trans Less_total).
  - rewrite sort_Sort_Permutation. exact Hperm.
  - apply StronglySorted_Sorted.
    by apply sort_Sort_StronglySorted.
Qed.

Lemma sorted_arrangement_unique (l l' : list A) :
  l ≡ₚ l' -> Sorted (notAfter Less) l -> Sorted (notAfter Less) l' -> l = l'.
Proof.
  intros Hperm Hl Hl'.
  rewrite (sort_Sort_unique Less Less_irrefl Less_trans Less_total l' l) by done.
  symmetry. by apply (sort_Sort_unique Less Less_irrefl Less_trans Less_total).
Qed.

Lemma Less_connected a b : a <> b -> Less a b = true \/ Less b a = true.
Proof.
  intros Hne. destruct (Less a b) eqn:Hab; [by left|].
  destruct (Less b a) eqn:Hba; [by right|]. exfalso. auto.
Qed.

Lemma above_ne (l : list A) a b :
  In a l -> In b l -> a <> b -> above Less a l <> above Less b l.
Proof.
  intros Ha Hb Hne. destruct (Less_connected a b Hne) as [Hab|Hba].
  - pose proof (above_lt Less l a b Less_irrefl Less_trans Hb Hab). lia.
  - pose proof (above_lt Less l b a Less_irrefl Less_trans Ha Hba). lia.
Qed.
End SortOrderFacts.

(** X1: the rank does not depend on the order in which the rows reach
    the ranking slice. *)
Theorem rank_ignores_row_order :
  (forall (ranking ranking' : LivestreamRanking) livestreamID,
      ranking ≡ₚ ranking' ->
      livestreamRank ranking livestreamID = livestreamRank ranking' livestreamID)
  /\ (forall (ranking ranking' : UserRanking) username,
      ranking ≡ₚ ranking' ->
      userRank ranking username = userRank ranking' username).
Proof.
  split; intros ranking ranking' t Hperm.
  - unfold livestreamRank.
    by rewrite (sort_Sort_Permutation_eq _ LivestreamRanking_Less_irrefl
                  LivestreamRanking_Less_trans LivestreamRanking_Less_total _ _ Hperm).
  - unfold userRank.
    by rewrite (sort_Sort_Permutation_eq _ UserRanking_Less_irrefl
                  UserRanking_Less_trans UserRanking_Less_total _ _ Hperm).
Qed.

Lemma rank_ignores_row_order_witness :
  livestreamRank scenarioScores 3 = livestreamRank (rev scenarioScores) 3
  /\ userRank scenarioUsers "carol" = userRank (rev scenarioUsers) "carol".
Proof.
  split.
  - apply (proj1 rank_ignores_row_order scenarioScores (rev scenarioScores) 3).
    apply Permutation_rev.
  - apply (proj2 rank_ignores_row_order scenarioUsers (rev scenarioUsers) "carol"%string).
    apply Permutation_rev.
Defined.

(** X2: the two [Less] methods leave no ties, so a slice has one sorted
    arrangement only: two rearrangements of the same records that
    [sort.IsSorted] accepts are the same slice. *)
Theorem sorted_ranking_is_unique :
  (forall ranking ranking' : LivestreamRanking,
      ranking ≡ₚ ranking' ->
      Sorted (notAfter LivestreamRanking_Less) ranking ->
      Sorted (notAfter LivestreamRanking_Less) ranking' ->
      ranking = ranking')
  /\ (forall ranking ranking' : UserRanking,
      ranking ≡ₚ ranking' ->
      Sorted (notAfter UserRanking_Less) ranking ->
      Sorted (notAfter UserRanking_Less) ranking' ->
      ranking = ranking').
Proof.
  split; intros ranking ranking'.
  - apply sorted_arrangement_unique.
    + apply LivestreamRanking_Less_irrefl.
    + apply LivestreamRanking_Less_trans.
    + apply LivestreamRanking_Less_total.
  - apply sorted_arrangement_unique.
    + apply UserRanking_Less_irrefl.
    + apply UserRanking_Less_trans.
    + apply UserRanking_Less_total.
Qed.

Lemma sorted_ranking_is_unique_witness :
  sort_Sort LivestreamRanking_Less scenarioScores
  = sort_Sort LivestreamRanking_Less (rev scenarioScores)
  /\ sort_Sort UserRanking_Less scenarioUsers = sort_Sort UserRanking_Less (rev scenarioUsers).
Proof.
  split.
  - apply (proj1 sorted_ranking_is_unique).
    + vm_compute. apply Permutation_refl.
    + vm_compute. repeat constructor.
    + vm_compute. repeat constructor.
  - apply (proj2 sorted_ranking_is_unique).
    + vm_compute. apply Permutation_refl.
    + vm_compute. repeat constructor.
    + vm_compute. repeat constructor.
Defined.

(** X3: in a score set with one record per entity, two different
    entities never receive the same rank. *)
Theorem distinct_entities_distinct_ranks :
  (forall (ranking : LivestreamRanking) a b,
      distinctLivestreams ranking -> sliceLen ranking ->
      In a ranking -> In b ranking -> a <> b ->
      livestreamRank ranking (LivestreamRankingEntry.LivestreamID a)
      <> livestreamRank ranking (LivestreamRankingEntry.LivestreamID b))
  /\ (forall (ranking : UserRanking) a b,
      distinctUsers ranking -> sliceLen ranking ->
      In a ranking -> In b ranking -> a <> b ->
      userRank ranking (UserRankingEntry.Username a)
      <> userRank ranking (UserRankingEntry.Username b)).
Proof.
  split; intros ranking a b Hnd Hlen Ha Hb Hne.
  - rewrite !livestreamRank_above by assumption.
    pose proof (above_ne _ LivestreamRanking_Less_irrefl LivestreamRanking_Less_trans
                  LivestreamRanking_Less_total ranking a b Ha Hb Hne). lia.
  - rewrite !userRank_above by assumption.
    pose proof (above_ne _ UserRanking_Less_irrefl UserRanking_Less_trans
                  UserRanking_Less_total ranking a b Ha Hb Hne). lia.
Qed.

Lemma distinct_entities_distinct_ranks_witness :
  livestreamRank scenarioScores 1 <> livestreamRank scenarioScores 3
  /\ userRank scenarioUsers "alice" <> userRank scenarioUsers "carol".
Proof.
  split.
  - apply (proj1 distinct_entities_distinct_ranks scenarioScores
             (LivestreamRankingEntry.mk 1 10) (LivestreamRankingEntry.mk 3 10));
      [distinct_ids|short_slice|member|member|discriminate].
  - apply (proj2 distinct_entities_distinct_ranks scenarioUsers
             (UserRankingEntry.mk "alice" 10) (UserRankingEntry.mk "carol" 10));
      [distinct_ids|short_slice|member|member|discriminate].
Defined.

(** X4: in a score set with one record per entity, a record with a
    strictly higher score receives a strictly smaller rank number. *)
Theorem higher_score_ranks_first :
  (forall (ranking : LivestreamRanking) a b,
      distinctLivestreams ranking -> sliceLen ranking ->
      In a ranking -> In b ranking ->
      LivestreamRankingEntry.Score a < LivestreamRankingEntry.Score b ->
      livestreamRank ranking (LivestreamRankingEntry.LivestreamID b)
      < livestreamRank ranking (LivestreamRankingEntry.LivestreamID a))
  /\ (forall (ranking : UserRanking) a b,
      distinctUsers ranking -> sliceLen ranking ->
      In a ranking -> In b ranking ->
      UserRankingEntry.Score a < UserRankingEntry.Score b ->
      userRank ranking (UserRankingEntry.Username b)
      < userRank ranking (UserRankingEntry.Username a)).
Proof.
  split; intros ranking a b Hnd Hlen Ha Hb Hscore.
  - rewrite !livestreamRank_above by assumption.
    apply Z.add_lt_mono_l, above_lt; auto using LivestreamRanking_Less_irrefl.
    + apply LivestreamRanking_Less_trans.
    + unfold LivestreamRanking_Less.
      destruct (Z.eqb_spec (LivestreamRankingEntry.Score a) (LivestreamRankingEntry.Score b));
        [lia|]. by apply Z.ltb_lt.
  - rewrite !userRank_above by assumption.
    apply Z.add_lt_mono_l, above_lt; auto using UserRanking_Less_irrefl.
    + apply UserRanking_Less_trans.
    + unfold UserRanking_Less.
      destruct (Z.eqb_spec (UserRankingEntry.Score a) (UserRankingEntry.Score b));
        [lia|]. by apply Z.ltb_lt.
Qed.

Lemma higher_score_ranks_first_witness :
  livestreamRank scenarioScores 2 < livestreamRank scenarioScores 3
  /\ userRank scenarioUsers "bob" < userRank scenarioUsers "alice".
Proof.
  split.
  - apply (proj1 higher_score_ranks_first scenarioScores
             (LivestreamRankingEntry.mk 3 10) (LivestreamRankingEntry.mk 2 30));
      [distinct_ids|short_slice|member|member|reflexivity].
  - apply (proj2 higher_score_ranks_first scenarioUsers
             (UserRankingEntry.mk "alice" 10) (UserRankingEntry.mk "bob" 30));
      [distinct_ids|short_slice|member|member|reflexivity].
Defined.

(** * Further properties of the user statistics handler *)

(** ** Arithmetic of the accumulators *)

Lemma wrap_idem_add a b : Int64.wrap (Int64.wrap a + b) = Int64.wrap (a + b).
Proof.
  unfold Int64.wrap, Int64.modulus.
  replace ((a + 2 ^ 63) mod 2 ^ 64 - 2 ^ 63 + b + 2 ^ 63)
    with ((a + 2 ^ 63) mod 2 ^ 64 + b) by lia.
  replace (a + b + 2 ^ 63) with (a + 2 ^ 63 + b) by lia.
  by rewrite Zplus_mod_idemp_l.
Qed.

Lemma sumStats_wrap (rows : list LivestreamStats.t) c t :
  sumStats (Int64.wrap c) (Int64.wrap t) rows
  = (Int64.wrap (c + sumZ (map LivestreamStats.LivecommentsCount rows)),
     Int64.wrap (t + sumZ (map LivestreamStats.TotalTip rows))).
Proof.
  revert c t. induction rows as [|row rows IH]; intros c t; simpl.
  - by rewrite !Z.add_0_r.
  - unfold Int64.add. rewrite !wrap_idem_add, IH. f_equal; f_equal; lia.
Qed.

(** ** The score map *)

Lemma initUserScores_lookup (users : list UserModel.t) m id :
  initUserScores m users !! id
  = if existsb (fun u => UserModel.ID u =? id) users
    then Some (UserScores.mk id 0 0) else m !! id.
Proof.
  revert m. induction users as [|user users IH]; intros m; simpl; [reflexivity|].
  rewrite IH. destruct (existsb (fun u => UserModel.ID u =? id) users).
  - by rewrite orb_true_r.
  - rewrite orb_false_r. destruct (Z.eqb_spec (UserModel.ID user) id) as [->|Hne].
    + apply lookup_insert_eq.
    + by apply lookup_insert_ne.
Qed.

Lemma existsb_ID_In (users : list UserModel.t) id :
  existsb (fun u => UserModel.ID u =? id) users = true <-> In id (map UserModel.ID users).
Proof.
  rewrite existsb_exists, in_map_iff. split.
  - intros (u & Hu & Heq). apply Z.eqb_eq in Heq. eauto.
  - intros (u & Heq & Hu). exists u. split; [exact Hu|]. by apply Z.eqb_eq.
Qed.

Lemma mapReactions_Ok (rs : list UserScores.t) m m' :
  mapReactions m rs = Ok m' ->
  (forall row, In row rs -> is_Some (m !! UserScores.UserID row))
  /\ forall id,
      m' !! id
      = (fun p => UserScores.mk (UserScores.UserID p)
                    (if existsb (fun r => UserScores.UserID r =? id) rs
                     then lastScore UserScores.Reactions id rs else UserScores.Reactions p)
                    (UserScores.Tips p)) <$> m !! id.
Proof.
  revert m. induction rs as [|row rs IH]; intros m; simpl.
  - intros [= <-]. split; [intros ? []|]. intros id.
    destruct (m !! id) as [[? ? ?]|]; reflexivity.
  - destruct (m !! UserScores.UserID row) as [p|] eqn:Hp; [|discriminate].
    intros Hrest. destruct (IH _ Hrest) as [Hknown Hlook]. split.
    + intros r [<-|Hr]; [by rewrite Hp|].
      specialize (Hknown r Hr).
      destruct (decide (UserScores.UserID row = UserScores.UserID r)) as [Heq|Hne].
      * rewrite <- Heq, Hp. eauto.
      * by rewrite lookup_insert_ne in Hknown.
    + intros id. rewrite Hlook.
      destruct (Z.eqb_spec (UserScores.UserID row) id) as [<-|Hne].
      * rewrite lookup_insert_eq, Hp. simpl.
        by destruct (existsb _ rs).
      * rewrite lookup_insert_ne by exact Hne. simpl.
        destruct (m !! id) as [q|]; [simpl|reflexivity].
        by destruct (existsb _ rs).
Qed.

Lemma mapTips_Ok (ts : list UserScores.t) m m' :
  mapTips m ts = Ok m' ->
  (forall row, In row ts -> is_Some (m !! UserScores.UserID row))
  /\ forall id,
      m' !! id
      = (fun p => UserScores.mk (UserScores.UserID p) (UserScores.Reactions p)
                    (if existsb (fun r => UserScores.UserID r =? id) ts
                     then lastScore UserScores.Tips id ts else UserScores.Tips p))
          <$> m !! id.
Proof.
  revert m. induction ts as [|row ts IH]; intros m; simpl.
  - intros [= <-]. split; [intros ? []|]. intros id.
    destruct (m !! id) as [[? ? ?]|]; reflexivity.
  - destruct (m !! UserScores.UserID row) as [p|] eqn:Hp; [|discriminate].
    intros Hrest. destruct (IH _ Hrest) as [Hknown Hlook]. split.
    + intros r [<-|Hr]; [by rewrite Hp|].
      specialize (Hknown r Hr).
      destruct (decide (UserScores.UserID row = UserScores.UserID r)) as [Heq|Hne].
      * rewrite <- Heq, Hp. eauto.
      * by rewrite lookup_insert_ne in Hknown.
    + intros id. rewrite Hlook.
      destruct (Z.eqb_spec (UserScores.UserID row) id) as [<-|Hne].
      * rewrite lookup_insert_eq, Hp. simpl.
        by destruct (existsb _ ts).
      * rewrite lookup_insert_ne by exact Hne. simpl.
        destruct (m !! id) as [q|]; [simpl|reflexivity].
        by destruct (existsb _ ts).
Qed.

(** The two loops end in [Ok] or in a panic, and panic exactly on a row
    whose user id is no key of the map. *)
Lemma mapReactions_known (rs : list UserScores.t) m :
  (forall row, In row rs -> is_Some (m !! UserScores.UserID row)) ->
  exists m', mapReactions m rs = Ok m'.
Proof.
  revert m. induction rs as [|row rs IH]; intros m Hknown; simpl; [eauto|].
  destruct (Hknown row) as [p Hp]; [by left|]. rewrite Hp.
  apply IH. intros r Hr. destruct (Hknown r) as [q Hq]; [by right|].
  destruct (decide (UserScores.UserID row = UserScores.UserID r)) as [Heq|Hne].
  - rewrite <- Heq, lookup_insert_eq. eauto.
  - rewrite lookup_insert_ne by exact Hne. eauto.
Qed.

Lemma mapTips_known (ts : list UserScores.t) m :
  (forall row, In row ts -> is_Some (m !! UserScores.UserID row)) ->
  exists m', mapTips m ts = Ok m'.
Proof.
  revert m. induction ts as [|row ts IH]; intros m Hknown; simpl; [eauto|].
  destruct (Hknown row) as [p Hp]; [by left|]. rewrite Hp.
  apply IH. intros r Hr. destruct (Hknown r) as [q Hq]; [by right|].
  destruct (decide (UserScores.UserID row = UserScores.UserID r)) as [Heq|Hne].
  - rewrite <- Heq, lookup_insert_eq. eauto.
  - rewrite lookup_insert_ne by exact Hne. eauto.
Qed.

Lemma mapReactions_unknown (rs : list UserScores.t) m :
  (exists row, In row rs /\ m !! UserScores.UserID row = None) ->
  mapReactions m rs = Panic.
Proof.
  revert m. induction rs as [|row rs IH]; intros m (r & Hr & Hnone); [destruct Hr|].
  simpl. destruct (m !! UserScores.UserID row) as [p|] eqn:Hp; [|reflexivity].
  apply IH. destruct Hr as [->|Hr]; [congruence|].
  exists r. split; [exact Hr|].
  rewrite lookup_insert_ne; [exact Hnone|]. intros Heq. congruence.
Qed.

Lemma mapTips_unknown (ts : list UserScores.t) m :
  (exists row, In row ts /\ m !! UserScores.UserID row = None) ->
  mapTips m ts = Panic.
Proof.
  revert m. induction ts as [|row ts IH]; intros m (r & Hr & Hnone); [destruct Hr|].
  simpl. destruct (m !! UserScores.UserID row) as [p|] eqn:Hp; [|reflexivity].
  apply IH. destruct Hr as [->|Hr]; [congruence|].
  exists r. split; [exact Hr|].
  rewrite lookup_insert_ne; [exact Hnone|]. intros Heq. congruence.
Qed.

Lemma buildRanking_Ok (users : list UserModel.t) m acc ranking :
  buildRanking m acc users = Ok ranking ->
  ranking
  = acc ++ map (fun user =>
                  UserRankingEntry.mk (UserModel.Name user)
                    (match m !! UserModel.ID user with
                     | Some score =>
                         Int64.add (UserScores.Reactions score) (UserScores.Tips score)
                     | None => 0
                     end)) users.
Proof.
  revert acc. induction users as [|user users IH]; intros acc; simpl.
  - intros [= <-]. by rewrite app_nil_r.
  - destruct (m !! UserModel.ID user) as [score|]; [|discriminate].
    intros Hrest. rewrite (IH _ Hrest), <- app_assoc. reflexivity.
Qed.

Lemma buildRanking_known (users : list UserModel.t) m acc :
  (forall user, In user users -> is_Some (m !! UserModel.ID user)) ->
  exists ranking, buildRanking m acc users = Ok ranking.
Proof.
  revert acc. induction users as [|user users IH]; intros acc Hknown; simpl; [eauto|].
  destruct (Hknown user) as [score Hscore]; [by left|]. rewrite Hscore.
  apply IH. intros u Hu. apply Hknown. by right.
Qed.

(** ** Runs of the handler that reply with statistics *)

Lemma getUserStatisticsHandler_Ok db username status stats :
  getUserStatisticsHandler db username = Ok (status, stats) ->
  exists user users rs ts m1 m2 ranking totalReactions rows favoriteEmoji,
    StatsStore.getUser db username = inr user
    /\ StatsStore.selectUsers db = inr users
    /\ StatsStore.selectReactions db = inr rs
    /\ mapReactions (initUserScores ∅ users) rs = Ok m1
    /\ StatsStore.selectTips db = inr ts
    /\ mapTips m1 ts = Ok m2
    /\ buildRanking m2 [] users = Ok ranking
    /\ StatsStore.selectLivestreamStats db (UserModel.ID user) = inr rows
    /\ status = StatusOK
    /\ stats = UserStatistics.mk (userRank ranking username) 0 totalReactions
                 (fst (sumStats 0 0 rows)) (snd (sumStats 0 0 rows)) favoriteEmoji.
Proof.
  unfold getUserStatisticsHandler. rewrite sumViewers_no_livestreams.
  unfold mbind, outcome_bind, orInternalError, orZeroOnNoRows, NewHTTPError.
  intros H.
  destruct (StatsStore.verifyUserSession db); [discriminate|].
  destruct (StatsStore.BeginTxx db); [discriminate|].
  destruct (StatsStore.getUser db username) as [err|user];
    [destruct (isErrNoRows err); discriminate|].
  destruct (StatsStore.selectUsers db) as [err|users]; [discriminate|].
  destruct (StatsStore.selectReactions db) as [err|rs]; [discriminate|].
  destruct (mapReactions (initUserScores ∅ users) rs) as [m1| |] eqn:Hm1;
    try discriminate.
  destruct (StatsStore.selectTips db) as [err|ts]; [discriminate|].
  destruct (mapTips m1 ts) as [m2| |] eqn:Hm2; try discriminate.
  destruct (buildRanking m2 [] users) as [ranking| |] eqn:Hranking; try discriminate.
  exists user, users, rs, ts, m1, m2, ranking.
  destruct (StatsStore.selectLivestreamStats db (UserModel.ID user)) as [err|rows].
  { repeat step_handler H. }
  destruct (sumStats 0 0 rows) as [totalLivecomments totalTip] eqn:Hsum.
  repeat step_handler H.
  all: injection H as <- <-; eexists _, rows, _; rewrite Hsum;
    repeat split; (reflexivity || assumption).
Qed.

Lemma lastScore_absent field id (rows : list UserScores.t) :
  existsb (fun r => UserScores.UserID r =? id) rows = false -> lastScore field id rows = 0.
Proof.
  induction rows as [|row rows IH]; simpl; [reflexivity|].
  intros H. apply orb_false_iff in H as [Hrow Hrest]. by rewrite Hrest, Hrow.
Qed.

Lemma ranking_of_score_maps (users : list UserModel.t) rs ts m1 m2 ranking :
  mapReactions (initUserScores ∅ users) rs = Ok m1 ->
  mapTips m1 ts = Ok m2 ->
  buildRanking m2 [] users = Ok ranking ->
  ranking = userRankingOf users rs ts.
Proof.
  intros Hm1 Hm2 Hranking.
  apply mapReactions_Ok in Hm1 as [_ Hm1]. apply mapTips_Ok in Hm2 as [_ Hm2].
  rewrite (buildRanking_Ok _ _ _ _ Hranking). simpl. unfold userRankingOf.
  apply map_ext_in. intros user Huser.
  rewrite Hm2, Hm1, initUserScores_lookup.
  assert (Hex : existsb (fun u => UserModel.ID u =? UserModel.ID user) users = true).
  { apply existsb_ID_In. by apply in_map. }
  rewrite Hex. simpl. f_equal. f_equal.
  - destruct (existsb _ rs) eqn:Hrs; [reflexivity|]. by rewrite lastScore_absent.
  - destruct (existsb _ ts) eqn:Hts; [reflexivity|]. by rewrite lastScore_absent.
Qed.

(** X5: the rank in the reply is the rank of the requested name in the
    ranking with one entry per user row, scored by the reactions count
    plus the tips total that the last aggregate row of that user
    reports (0 where no row names the user), added as [int64]. *)
Theorem user_statistics_rank_of_aggregates db username status stats users rs ts :
  getUserStatisticsHandler db username = Ok (status, stats) ->
  StatsStore.selectUsers db = inr users ->
  StatsStore.selectReactions db = inr rs ->
  StatsStore.selectTips db = inr ts ->
  UserStatistics.Rank stats = userRank (userRankingOf users rs ts) username.
Proof.
  intros Hok Husers Hrs Hts.
  apply getUserStatisticsHandler_Ok in Hok
    as (user & users' & rs' & ts' & m1 & m2 & ranking & totalReactions & rows & emoji
        & _ & Husers' & Hrs' & Hm1 & Hts' & Hm2 & Hranking & _ & _ & ->).
  rewrite Husers in Husers'. injection Husers' as <-.
  rewrite Hrs in Hrs'. injection Hrs' as <-.
  rewrite Hts in Hts'. injection Hts' as <-.
  simpl. by rewrite (ranking_of_score_maps _ _ _ _ _ _ Hm1 Hm2 Hranking).
Qed.

Lemma user_statistics_rank_of_aggregates_witness :
  UserStatistics.Rank (UserStatistics.mk 1 0 3 2 100 "heart")
  = userRank [UserRankingEntry.mk "alice" 103; UserRankingEntry.mk "bob" 1] "alice".
Proof.
  apply (user_statistics_rank_of_aggregates sampleStatsStore "alice"%string 200
           (UserStatistics.mk 1 0 3 2 100 "heart")
           [UserModel.mk 1 "alice"; UserModel.mk 2 "bob"]
           [UserScores.mk 1 3 0; UserScores.mk 2 1 0] [UserScores.mk 1 0 100]);
    vm_compute; reflexivity.
Defined.

(** X6: when the handler replies with statistics, the rank lies between
    1 and the number of user rows if some row carries the requested
    name, and is that number plus one if none does. *)
Theorem user_statistics_rank_bounds db username status stats users :
  getUserStatisticsHandler db username = Ok (status, stats) ->
  StatsStore.selectUsers db = inr users ->
  sliceLen users ->
  ((exists user, In user users /\ UserModel.Name user = username) ->
   1 <= UserStatistics.Rank stats <= Z.of_nat (length users))
  /\ ((forall user, In user users -> UserModel.Name user <> username) ->
      UserStatistics.Rank stats = Z.of_nat (length users) + 1).
Proof.
  intros Hok Husers Hlen.
  apply getUserStatisticsHandler_Ok in Hok
    as (user & users' & rs & ts & m1 & m2 & ranking & totalReactions & rows & emoji
        & _ & Husers' & _ & Hm1 & _ & Hm2 & Hranking & _ & _ & ->).
  rewrite Husers in Husers'. injection Husers' as <-.
  rewrite (ranking_of_score_maps _ _ _ _ _ _ Hm1 Hm2 Hranking). simpl.
  assert (Hn : length (userRankingOf users rs ts) = length users)
    by apply length_map.
  unfold userRank. rewrite <- Hn. split.
  - intros (u & Hu & Hname). apply rankOf_bounds; [|unfold sliceLen in *; lia].
    exists (UserRankingEntry.mk (UserModel.Name u)
              (Int64.add (lastScore UserScores.Reactions (UserModel.ID u) rs)
                         (lastScore UserScores.Tips (UserModel.ID u) ts))).
    split; [|by apply String.eqb_eq].
    unfold userRankingOf. apply in_map_iff. eauto.
  - intros Hnone. apply rankOf_absent; [|unfold sliceLen in *; lia].
    intros entry Hentry. apply in_map_iff in Hentry as (u & <- & Hu).
    simpl. apply String.eqb_neq. by apply Hnone.
Qed.

Lemma user_statistics_rank_bounds_witness :
  1 <= UserStatistics.Rank (UserStatistics.mk 1 0 3 2 100 "heart") <= 2.
Proof.
  apply (user_statistics_rank_bounds sampleStatsStore "alice"%string 200
           (UserStatistics.mk 1 0 3 2 100 "heart")
           [UserModel.mk 1 "alice"; UserModel.mk 2 "bob"]);
    [vm_compute; reflexivity|reflexivity|short_slice|].
  exists (UserModel.mk 1 "alice"). split; [member|reflexivity].
Defined.

(** X7: the handler panics on no store whose reactions rows and tips
    rows name users of the user rows only. *)
Theorem user_statistics_no_panic db username :
  (forall users rs, StatsStore.selectUsers db = inr users ->
                    StatsStore.selectReactions db = inr rs -> knownUsers users rs) ->
  (forall users ts, StatsStore.selectUsers db = inr users ->
                    StatsStore.selectTips db = inr ts -> knownUsers users ts) ->
  getUserStatisticsHandler db username <> Panic.
Proof.
  intros Hrs Hts.
  unfold getUserStatisticsHandler. rewrite sumViewers_no_livestreams.
  unfold mbind, outcome_bind, orInternalError, orZeroOnNoRows, NewHTTPError.
  destruct (StatsStore.verifyUserSession db); [discriminate|].
  destruct (StatsStore.BeginTxx db); [discriminate|].
  destruct (StatsStore.getUser db username) as [err|user];
    [destruct (isErrNoRows err); discriminate|].
  destruct (StatsStore.selectUsers db) as [err|users]; [discriminate|].
  destruct (StatsStore.selectReactions db) as [err|rs]; [discriminate|].
  assert (Hkeys : forall id, In id (map UserModel.ID users) ->
                             is_Some (initUserScores ∅ users !! id)).
  { intros id Hid. rewrite initUserScores_lookup.
    apply existsb_ID_In in Hid. rewrite Hid. eauto. }
  destruct (mapReactions_known rs (initUserScores ∅ users)) as [m1 Hm1].
  { intros row Hrow. apply Hkeys. by apply (Hrs users rs). }
  rewrite Hm1. apply mapReactions_Ok in Hm1 as [_ Hm1].
  destruct (StatsStore.selectTips db) as [err|ts]; [discriminate|].
  assert (Hkeys1 : forall id, In id (map UserModel.ID users) -> is_Some (m1 !! id)).
  { intros id Hid. rewrite Hm1. destruct (Hkeys id Hid) as [p ->]. simpl. eauto. }
  destruct (mapTips_known ts m1) as [m2 Hm2].
  { intros row Hrow. apply Hkeys1. by apply (Hts users ts). }
  rewrite Hm2. apply mapTips_Ok in Hm2 as [_ Hm2].
  destruct (buildRanking_known users m2 []) as [ranking ->].
  { intros user' Huser. rewrite Hm2.
    destruct (Hkeys1 (UserModel.ID user')) as [p ->]; [by apply in_map|]. simpl. eauto. }
  repeat case_match; discriminate.
Qed.

Lemma user_statistics_no_panic_witness :
  getUserStatisticsHandler sampleStatsStore "alice" <> Panic.
Proof.
  apply (user_statistics_no_panic sampleStatsStore "alice"%string).
  - intros users rs [= <-] [= <-] row [<-|[<-|[]]]; simpl; tauto.
  - intros users ts [= <-] [= <-] row [<-|[]]; simpl; tauto.
Defined.

(** X8: once the session, the transaction, the user lookup and the
    three bulk reads have succeeded, a reactions row (or, the reactions
    rows being fine, a tips row) whose user id is none of the user rows'
    makes the handler panic on a nil map entry. *)
Theorem user_statistics_panics_on_orphan_row db username user users rs :
  StatsStore.verifyUserSession db = None ->
  StatsStore.BeginTxx db = None ->
  StatsStore.getUser db username = inr user ->
  StatsStore.selectUsers db = inr users ->
  StatsStore.selectReactions db = inr rs ->
  ((exists row, In row rs /\ ~ In (UserScores.UserID row) (map UserModel.ID users)) ->
   getUserStatisticsHandler db username = Panic)
  /\ (forall ts, StatsStore.selectTips db = inr ts -> knownUsers users rs ->
        (exists row, In row ts /\ ~ In (UserScores.UserID row) (map UserModel.ID users)) ->
        getUserStatisticsHandler db username = Panic).
Proof.
  intros Hsession Hbegin Huser Husers Hrs.
  assert (Hnokey : forall id, ~ In id (map UserModel.ID users) ->
                              initUserScores ∅ users !! id = None).
  { intros id Hid. rewrite initUserScores_lookup.
    destruct (existsb _ users) eqn:Hex; [|apply lookup_empty].
    exfalso. by apply Hid, existsb_ID_In. }
  unfold getUserStatisticsHandler.
  rewrite Hsession, Hbegin, Huser, Husers, Hrs. simpl. split.
  - intros (row & Hrow & Hid). rewrite mapReactions_unknown; [reflexivity|].
    exists row. split; [exact Hrow|]. by apply Hnokey.
  - intros ts Hts Hknown (row & Hrow & Hid).
    destruct (mapReactions_known rs (initUserScores ∅ users)) as [m1 Hm1].
    { intros r Hr. rewrite initUserScores_lookup.
      pose proof (Hknown r Hr) as Hin. apply existsb_ID_In in Hin. rewrite Hin. eauto. }
    rewrite Hm1, Hts. simpl. apply mapReactions_Ok in Hm1 as [_ Hm1].
    rewrite mapTips_unknown; [reflexivity|].
    exists row. split; [exact Hrow|]. by rewrite Hm1, Hnokey.
Qed.

Lemma user_statistics_panics_on_orphan_row_witness :
  getUserStatisticsHandler orphanStatsStore "alice" = Panic.
Proof.
  apply (proj1 (user_statistics_panics_on_orphan_row orphanStatsStore "alice"%string
                  (UserModel.mk 1 "alice")
                  [UserModel.mk 1 "alice"; UserModel.mk 2 "bob"]
                  [UserScores.mk 1 3 0; UserScores.mk 7 1 0]
                  eq_refl eq_refl eq_refl eq_refl eq_refl)).
  exists (UserScores.mk 7 1 0). split; [member|].
  simpl. intros [H|[H|[]]]; discriminate H.
Defined.

(** X9: the totals of the reply are the sums of the comment counts and
    of the tips over the rows of the statistics query for the user,
    reduced to [int64]. *)
Theorem user_statistics_totals db username status stats user rows :
  getUserStatisticsHandler db username = Ok (status, stats) ->
  StatsStore.getUser db username = inr user ->
  StatsStore.selectLivestreamStats db (UserModel.ID user) = inr rows ->
  UserStatistics.TotalLivecomments stats
  = Int64.wrap (sumZ (map LivestreamStats.LivecommentsCount rows))
  /\ UserStatistics.TotalTip stats
     = Int64.wrap (sumZ (map LivestreamStats.TotalTip rows)).
Proof.
  intros Hok Huser Hrows.
  apply getUserStatisticsHandler_Ok in Hok
    as (user' & users & rs & ts & m1 & m2 & ranking & totalReactions & rows' & emoji
        & Huser' & _ & _ & _ & _ & _ & _ & Hrows' & _ & ->).
  rewrite Huser in Huser'. injection Huser' as <-.
  rewrite Hrows in Hrows'. injection Hrows' as <-.
  simpl. change (sumStats 0 0 rows) with (sumStats (Int64.wrap 0) (Int64.wrap 0) rows).
  rewrite sumStats_wrap. simpl. split; reflexivity.
Qed.

Lemma user_statistics_totals_witness :
  UserStatistics.TotalLivecomments (UserStatistics.mk 1 0 3 2 100 "heart") = Int64.wrap 2
  /\ UserStatistics.TotalTip (UserStatistics.mk 1 0 3 2 100 "heart") = Int64.wrap 100.
Proof.
  apply (user_statistics_totals sampleStatsStore "alice"%string 200
           (UserStatistics.mk 1 0 3 2 100 "heart") (UserModel.mk 1 "alice")
           [LivestreamStats.mk 11 2 100; LivestreamStats.mk 12 0 0]);
    vm_compute; reflexivity.
Defined.

(** * Properties of the livestream statistics handler *)

Example getLivestreamStatisticsHandler_sample :
  getLivestreamStatisticsHandler sampleLivestreamStore "3"
  = Ok (200, LivestreamStatistics.mk 2 4 10 0 0).
Proof. vm_compute. reflexivity. Qed.

Lemma orZeroOnNoRows_Ok what (r : error + Z) v :
  orZeroOnNoRows what 0 r = Ok v -> v = valueOrZero r.
Proof.
  unfold orZeroOnNoRows, NewHTTPError. destruct r as [err|a]; simpl.
  - destruct (isErrNoRows err); [|discriminate]. by intros [= <-].
  - by intros [= <-].
Qed.


Lemma buildLivestreamRanking_Ok db (livestreams : list LivestreamModel.t) ranking result :
  buildLivestreamRanking db ranking livestreams = Ok result ->
  result = ranking ++ livestreamRankingOf db livestreams.
Proof.
  revert ranking. induction livestreams as [|l livestreams IH]; intros ranking; simpl.
  - intros [= <-]. by rewrite app_nil_r.
  - unfold mbind, outcome_bind.
    destruct (orZeroOnNoRows _ 0 (LivestreamStatsStore.countReactions db _))
      as [reactions| |] eqn:Hreactions; try discriminate.
    destruct (orZeroOnNoRows _ 0 (LivestreamStatsStore.sumTips db _))
      as [totalTips| |] eqn:Htips; try discriminate.
    intros Hrest. rewrite (IH _ Hrest), <- app_assoc. simpl.
    by rewrite (orZeroOnNoRows_Ok _ _ _ Hreactions), (orZeroOnNoRows_Ok _ _ _ Htips).
Qed.

Lemma getLivestreamStatisticsHandler_Ok db livestream_id status stats :
  getLivestreamStatisticsHandler db livestream_id = Ok (status, stats) ->
  exists livestreamID livestreams ranking,
    LivestreamStatsStore.Atoi db livestream_id = inr livestreamID
    /\ orZeroOnNoRows "failed to get livestreams: " []
         (LivestreamStatsStore.selectLivestreams db) = Ok livestreams
    /\ buildLivestreamRanking db [] livestreams = Ok ranking
    /\ LivestreamStatsStore.Commit db = None
    /\ status = StatusOK
    /\ LivestreamStatistics.Rank stats = livestreamRank ranking livestreamID.
Proof.
  unfold getLivestreamStatisticsHandler.
  unfold mbind, outcome_bind, orInternalError, NewHTTPError.
  intros H.
  destruct (LivestreamStatsStore.verifyUserSession db); [discriminate|].
  destruct (LivestreamStatsStore.Atoi db livestream_id) as [err|livestreamID];
    [discriminate|].
  destruct (LivestreamStatsStore.BeginTxx db); [discriminate|].
  destruct (LivestreamStatsStore.getLivestream db livestreamID) as [err|l];
    [destruct (isErrNoRows err); discriminate|].
  destruct (orZeroOnNoRows _ [] (LivestreamStatsStore.selectLivestreams db))
    as [livestreams| |] eqn:Hselect; try discriminate.
  destruct (buildLivestreamRanking db [] livestreams) as [ranking| |] eqn:Hranking;
    try discriminate.
  exists livestreamID, livestreams, ranking.
  destruct (orZeroOnNoRows _ 0 (LivestreamStatsStore.countViewers db livestreamID));
    try discriminate.
  destruct (orZeroOnNoRows _ 0 (LivestreamStatsStore.maxTip db livestreamID));
    try discriminate.
  destruct (orZeroOnNoRows _ 0 (LivestreamStatsStore.countTotalReactions db livestreamID));
    try discriminate.
  destruct (orZeroOnNoRows _ 0 (LivestreamStatsStore.countReports db livestreamID));
    try discriminate.
  destruct (LivestreamStatsStore.Commit db); [discriminate|].
  injection H as <- <-. repeat split; (reflexivity || assumption).
Qed.


(** X11: when the handler replies with statistics, the rank is the rank
    of the requested id in the ranking with one entry per livestream
    row, scored by its reaction count plus its tip total (0 for a count
    that found no row), and it lies between 1 and the number of rows
    when one of them carries the requested id. *)
Theorem livestream_statistics_rank db livestream_id status stats livestreamID livestreams :
  getLivestreamStatisticsHandler db livestream_id = Ok (status, stats) ->
  LivestreamStatsStore.Atoi db livestream_id = inr livestreamID ->
  LivestreamStatsStore.selectLivestreams db = inr livestreams ->
  sliceLen livestreams ->
  LivestreamStatistics.Rank stats
  = livestreamRank (livestreamRankingOf db livestreams) livestreamID
  /\ ((exists l, In l livestreams /\ LivestreamModel.ID l = livestreamID) ->
      1 <= LivestreamStatistics.Rank stats <= Z.of_nat (length livestreams)).
Proof.
  intros Hok Hid Hselect Hlen.
  apply getLivestreamStatisticsHandler_Ok in Hok
    as (id' & livestreams' & ranking & Hid' & Hselect' & Hranking & _ & _ & Hrank).
  rewrite Hid in Hid'. injection Hid' as <-.
  rewrite Hselect in Hselect'. injection Hselect' as <-.
  apply buildLivestreamRanking_Ok in Hranking. simpl in Hranking. subst ranking.
  rewrite Hrank. split; [reflexivity|].
  intros (l & Hl & Hlid).
  assert (Hn : length (livestreamRankingOf db livestreams) = length livestreams)
    by apply length_map.
  rewrite <- Hn. apply rankOf_bounds; [|unfold sliceLen in *; lia].
  eexists. split; [apply in_map; exact Hl|]. simpl. by apply Z.eqb_eq.
Qed.

Lemma livestream_statistics_rank_witness :
  LivestreamStatistics.Rank (LivestreamStatistics.mk 2 4 10 0 0)
  = livestreamRank scenarioScores 3
  /\ 1 <= LivestreamStatistics.Rank (LivestreamStatistics.mk 2 4 10 0 0) <= 3.
Proof.
  destruct (livestream_statistics_rank sampleLivestreamStore "3"%string 200
              (LivestreamStatistics.mk 2 4 10 0 0) 3
              [LivestreamModel.mk 1; LivestreamModel.mk 2; LivestreamModel.mk 3])
    as [Hrank Hbounds];
    [vm_compute; reflexivity|reflexivity|reflexivity|short_slice|].
  split; [exact Hrank|]. apply Hbounds.
  exists (LivestreamModel.mk 3). split; [member|reflexivity].
Defined.

(** X12: when the bulk read of the livestreams finds no row (an empty
    result, or [sql.ErrNoRows], which the handler tolerates), a reply
    with statistics carries rank 1. *)
Theorem livestream_statistics_rank_without_rows db livestream_id status stats :
  getLivestreamStatisticsHandler db livestream_id = Ok (status, stats) ->
  LivestreamStatsStore.selectLivestreams db = inr []
  \/ (exists err, LivestreamStatsStore.selectLivestreams db = inl err) ->
  LivestreamStatistics.Rank stats = 1.
Proof.
  intros Hok Hnone.
  apply getLivestreamStatisticsHandler_Ok in Hok
    as (id' & livestreams & ranking & _ & Hselect & Hranking & _ & _ & ->).
  assert (livestreams = []) as ->.
  { destruct Hnone as [Hnone|[err Hnone]]; rewrite Hnone in Hselect; simpl in Hselect.
    - by injection Hselect as <-.
    - unfold NewHTTPError in Hselect.
      destruct (isErrNoRows err); [by injection Hselect as <-|discriminate]. }
  simpl in Hranking. by injection Hranking as <-.
Qed.

Lemma livestream_statistics_rank_without_rows_witness :
  exists status stats,
    getLivestreamStatisticsHandler emptyLivestreamStore "3" = Ok (status, stats)
    /\ LivestreamStatistics.Rank stats = 1.
Proof.
  exists 200, (LivestreamStatistics.mk 1 4 10 0 0).
  split; [vm_compute; reflexivity|].
  apply (livestream_statistics_rank_without_rows emptyLivestreamStore "3"%string 200).
  - vm_compute. reflexivity.
  - right. by exists ErrNoRows.
Defined.

(** * Further properties of the tag cache *)

Lemma map_fmap {A B : Type} (f : A -> B) (l : list A) : map f l = f <$> l.
Proof. induction l as [|x l IH]; simpl; [reflexivity|]. by rewrite IH. Qed.

Lemma TagCache_eq (c1 c2 : TagCache.t) :
  TagCache.tags c1 = TagCache.tags c2 -> TagCache.nameToID c1 = TagCache.nameToID c2 ->
  c1 = c2.
Proof. destruct c1, c2. simpl. by intros -> ->. Qed.

Lemma NewTagCache_keys : tagKeysConsistent NewTagCache.
Proof. intros id tag H. simpl in H. by rewrite lookup_empty in H. Qed.

Lemma loadTags_keys (rows : list TagModel.t) c :
  tagKeysConsistent c -> tagKeysConsistent (loadTags c rows).
Proof.
  intros Hc id tag. rewrite loadTags_tags.
  destruct (lastRow (fun row => TagModel.ID row =? id) rows) as [row|] eqn:Hlast.
  - intros [= <-]. apply lastRow_Some in Hlast as [_ Hid]. by apply Z.eqb_eq.
  - apply Hc.
Qed.

Lemma initTagCache_cases db c :
  snd (initTagCache db c) = c
  \/ exists rows, TagStore.selectTags db = inr rows
                  /\ initTagCache db c = (TagStore.JSON db, loadTags c rows).
Proof.
  unfold initTagCache.
  destruct (TagStore.BeginTxx db); [by left|].
  destruct (TagStore.selectTags db) as [err|rows]; [by left|].
  destruct (TagStore.Commit db); [by left|]. right. eauto.
Qed.

Lemma lastRow_unique p (rows : list TagModel.t) row :
  In row rows -> p row = true ->
  (forall r, In r rows -> p r = true -> r = row) ->
  lastRow p rows = Some row.
Proof.
  induction rows as [|r rows IH]; intros Hin Hp Honly; [destruct Hin|]. simpl.
  destruct (lastRow p rows) as [later|] eqn:Hlater.
  - apply lastRow_Some in Hlater as [Hl Hpl]. f_equal. apply Honly; [by right|exact Hpl].
  - destruct (p r) eqn:Hpr.
    + f_equal. apply Honly; [by left|exact Hpr].
    + destruct Hin as [->|Hin]; [congruence|].
      apply IH; [exact Hin|exact Hp|].
      intros r' Hr'. apply Honly. by right.
Qed.

Lemma lastRow_None_inv p (rows : list TagModel.t) :
  lastRow p rows = None -> forall row, In row rows -> p row = false.
Proof.
  induction rows as [|r rows IH]; simpl; [intros _ ? []|].
  destruct (lastRow p rows); [discriminate|].
  destruct (p r) eqn:Hpr; [discriminate|].
  intros _ row [<-|Hrow]; [exact Hpr|]. by apply IH.
Qed.

(** X13: every tag of the cache is stored under its own id: so it is in
    the freshly constructed cache, and every run of the initialization
    keeps it so. *)
Theorem tag_cache_keys_consistent :
  tagKeysConsistent NewTagCache
  /\ (forall db c, tagKeysConsistent c -> tagKeysConsistent (snd (initTagCache db c))).
Proof.
  split; [apply NewTagCache_keys|].
  intros db c Hc. destruct (initTagCache_cases db c) as [->|(rows & _ & ->)]; [exact Hc|].
  simpl. by apply loadTags_keys.
Qed.

Lemma tag_cache_keys_consistent_witness :
  tagKeysConsistent (snd (initTagCache (tagStoreOf newRows)
                            (snd (initTagCache (tagStoreOf oldRows) NewTagCache)))).
Proof.
  apply (proj2 tag_cache_keys_consistent (tagStoreOf newRows)).
  apply (proj2 tag_cache_keys_consistent (tagStoreOf oldRows)).
  exact (proj1 tag_cache_keys_consistent).
Defined.

(** X14: whatever the order in which the map is ranged over, the tag
    list handler replies with one tag per entry of the cache and lists
    no id twice; a tag is listed exactly when [GetTagByID] finds it
    under its id. *)
Theorem tag_list_matches_cache c visit :
  tagKeysConsistent c ->
  rangeOrder (TagCache.tags c) visit ->
  fst (getTagHandler visit) = StatusOK
  /\ length (snd (getTagHandler visit)) = size (TagCache.tags c)
  /\ NoDup (map Tag.ID (snd (getTagHandler visit)))
  /\ forall tag,
      In tag (snd (getTagHandler visit))
      <-> GetTagByID c (Tag.ID tag) = (TagModel.mk (Tag.ID tag) (Tag.Name tag), true).
Proof.
  unfold rangeOrder. intros Hkeys Hvisit. simpl.
  assert (Hmem : forall k v, In (k, v) visit <-> TagCache.tags c !! k = Some v).
  { intros k v. rewrite <- list_elem_of_In, Hvisit. apply elem_of_map_to_list. }
  split; [reflexivity|]. split; [|split].
  - rewrite length_map, Hvisit. apply length_map_to_list.
  - rewrite map_map. simpl.
    rewrite (map_ext_in _ fst).
    + rewrite map_fmap, Hvisit. apply NoDup_fst_map_to_list.
    + intros [k v] Hkv. simpl. apply Hkeys. by apply Hmem.
  - intros [id name]. simpl. rewrite GetTagByID_found, in_map_iff. split.
    + intros ([k [tid tname]] & Heq & Hkv). simpl in Heq. injection Heq as -> ->.
      apply Hmem in Hkv. rewrite <- (Hkeys _ _ Hkv) in Hkv. exact Hkv.
    + intros Hfound. exists (id, TagModel.mk id name). split; [reflexivity|].
      by apply Hmem.
Qed.

Lemma tag_list_matches_cache_witness :
  length (snd (getTagHandler (map_to_list (TagCache.tags (loadTags NewTagCache newRows)))))
  = size (TagCache.tags (loadTags NewTagCache newRows))
  /\ (In (Tag.mk 2 "b")
         (snd (getTagHandler (map_to_list (TagCache.tags (loadTags NewTagCache newRows)))))
      <-> GetTagByID (loadTags NewTagCache newRows) 2 = (TagModel.mk 2 "b", true)).
Proof.
  destruct (tag_list_matches_cache (loadTags NewTagCache newRows)
              (map_to_list (TagCache.tags (loadTags NewTagCache newRows))))
    as (_ & Hlen & _ & Hmem).
  - apply loadTags_keys, NewTagCache_keys.
  - unfold rangeOrder. apply Permutation_refl.
  - split; [exact Hlen|]. exact (Hmem (Tag.mk 2 "b")).
Defined.

Lemma loadTags_idempotent (rows : list TagModel.t) c :
  loadTags (loadTags c rows) rows = loadTags c rows.
Proof.
  apply TagCache_eq; apply map_eq; intros k.
  - rewrite !loadTags_tags. by destruct (lastRow _ rows).
  - rewrite !loadTags_nameToID. by destruct (lastRow _ rows).
Qed.

(** X15: initializing twice against the same store leaves the cache as
    the first initialization left it. *)
Theorem initTagCache_idempotent db c :
  snd (initTagCache db (snd (initTagCache db c))) = snd (initTagCache db c).
Proof.
  destruct (initTagCache_cases db c) as [Hsame|(rows & Hrows & Hload)].
  - by rewrite !Hsame.
  - rewrite Hload. simpl.
    destruct (initTagCache_cases db (loadTags c rows)) as [Hsame|(rows' & Hrows' & Hload')];
      [exact Hsame|].
    rewrite Hrows in Hrows'. injection Hrows' as <-.
    rewrite Hload'. simpl. apply loadTags_idempotent.
Qed.

(** X16: the initialization removes nothing: an id or a name that the
    cache answered with found = true before the call is answered with
    found = true after it, on every path. *)
Theorem initTagCache_never_forgets db c :
  (forall id, snd (GetTagByID c id) = true ->
              snd (GetTagByID (snd (initTagCache db c)) id) = true)
  /\ (forall name, snd (GetTagIDByName c name) = true ->
                   snd (GetTagIDByName (snd (initTagCache db c)) name) = true).
Proof.
  destruct (initTagCache_cases db c) as [->|(rows & _ & ->)]; [by split|].
  simpl. split.
  - intros id. unfold GetTagByID. rewrite loadTags_tags.
    by destruct (lastRow _ rows).
  - intros name. unfold GetTagIDByName. rewrite loadTags_nameToID.
    by destruct (lastRow _ rows).
Qed.

Lemma initTagCache_never_forgets_witness :
  snd (GetTagByID (snd (initTagCache (tagStoreOf newRows) (loadTags NewTagCache oldRows))) 9)
  = true
  /\ snd (GetTagIDByName
            (snd (initTagCache (tagStoreOf newRows) (loadTags NewTagCache oldRows))) "old")
     = true.
Proof.
  destruct (initTagCache_never_forgets (tagStoreOf newRows) (loadTags NewTagCache oldRows))
    as [Hid Hname].
  split; [apply Hid|apply Hname]; vm_compute; reflexivity.
Defined.

(** X17: after a successful initialization from rows with pairwise
    different ids, [GetTagByID] returns each row under its id; from rows
    with pairwise different names, [GetTagIDByName] returns each row's
    id under its name. *)
Theorem initTagCache_lookup_round_trip db c c' rows :
  TagStore.selectTags db = inr rows ->
  initTagCache db c = (None, c') ->
  (NoDup (map TagModel.ID rows) ->
   forall row, In row rows -> GetTagByID c' (TagModel.ID row) = (row, true))
  /\ (NoDup (map TagModel.Name rows) ->
      forall row, In row rows ->
                  GetTagIDByName c' (TagModel.Name row) = (TagModel.ID row, true)).
Proof.
  intros Hrows Hinit.
  apply initTagCache_success in Hinit as (rows' & Hrows' & ->).
  rewrite Hrows in Hrows'. injection Hrows' as <-. split.
  - intros Hnd row Hrow. unfold GetTagByID. rewrite loadTags_tags.
    rewrite (lastRow_unique _ rows row); [reflexivity|exact Hrow|apply Z.eqb_refl|].
    intros r Hr Heq. apply Z.eqb_eq in Heq.
    by apply (NoDup_map_In_inj TagModel.ID rows).
  - intros Hnd row Hrow. unfold GetTagIDByName. rewrite loadTags_nameToID.
    rewrite (lastRow_unique _ rows row); [reflexivity|exact Hrow|apply String.eqb_refl|].
    intros r Hr Heq. apply String.eqb_eq in Heq.
    by apply (NoDup_map_In_inj TagModel.Name rows).
Qed.

Lemma initTagCache_lookup_round_trip_witness :
  GetTagByID (loadTags NewTagCache newRows) 2 = (TagModel.mk 2 "b", true)
  /\ GetTagIDByName (loadTags NewTagCache newRows) "b" = (2, true).
Proof.
  destruct (initTagCache_lookup_round_trip (tagStoreOf newRows) NewTagCache
              (loadTags NewTagCache newRows) newRows eq_refl eq_refl) as [Hid Hname].
  split.
  - apply (Hid ltac:(apply (bool_decide_unpack _); vm_compute; exact I)
             (TagModel.mk 2 "b")). member.
  - apply (Hname ltac:(apply (bool_decide_unpack _); vm_compute; exact I)
             (TagModel.mk 2 "b")). member.
Defined.

(** X18: when the initialization returns an error, the cache is the one
    before the call, unless the error is that of writing the reply: in
    that case the rows are loaded although the call failed. *)
Theorem initTagCache_error_atomicity db c :
  (TagStore.JSON db = None -> fst (initTagCache db c) <> None ->
   snd (initTagCache db c) = c)
  /\ (forall rows err,
         TagStore.BeginTxx db = None -> TagStore.selectTags db = inr rows ->
         TagStore.Commit db = None -> TagStore.JSON db = Some err ->
         initTagCache db c = (Some err, loadTags c rows)).
Proof.
  split.
  - intros Hjson Herr.
    destruct (initTagCache_cases db c) as [Hsame|(rows & _ & Hload)]; [exact Hsame|].
    rewrite Hload, Hjson in Herr. simpl in Herr. congruence.
  - intros rows err Hbegin Hrows Hcommit Hjson. unfold initTagCache.
    by rewrite Hbegin, Hrows, Hcommit, Hjson.
Qed.

Lemma initTagCache_error_atomicity_witness :
  snd (initTagCache failingTagStore (loadTags NewTagCache oldRows))
  = loadTags NewTagCache oldRows
  /\ initTagCache (replyFailsTagStore newRows) NewTagCache
     = (Some (ErrOther "broken pipe"), loadTags NewTagCache newRows).
Proof.
  split.
  - apply (proj1 (initTagCache_error_atomicity failingTagStore
                    (loadTags NewTagCache oldRows))); [reflexivity|discriminate].
  - apply (proj2 (initTagCache_error_atomicity (replyFailsTagStore newRows) NewTagCache));
      reflexivity.
Defined.

(** X19: after a successful initialization of the freshly constructed
    cache from rows with pairwise different ids, the tag list handler
    replies with the tags of exactly these rows, in some order. *)
Theorem tag_list_after_initialization db c' rows visit :
  TagStore.selectTags db = inr rows ->
  initTagCache db NewTagCache = (None, c') ->
  NoDup (map TagModel.ID rows) ->
  rangeOrder (TagCache.tags c') visit ->
  snd (getTagHandler visit)
  ≡ₚ map (fun row => Tag.mk (TagModel.ID row) (TagModel.Name row)) rows.
Proof.
  unfold rangeOrder. intros Hrows Hinit Hnd Hvisit.
  apply initTagCache_success in Hinit as (rows' & Hrows' & ->).
  rewrite Hrows in Hrows'. injection Hrows' as <-.
  assert (Hperm : visit ≡ₚ map (fun row => (TagModel.ID row, row)) rows).
  { rewrite Hvisit. apply NoDup_Permutation.
    - apply NoDup_map_to_list.
    - apply (NoDup_of_map fst). by rewrite map_map.
    - intros [k v]. rewrite elem_of_map_to_list, loadTags_tags, list_elem_of_In, in_map_iff.
      simpl. rewrite lookup_empty. split.
      + destruct (lastRow _ rows) as [row|] eqn:Hlast; [|discriminate].
        intros [= ->]. apply lastRow_Some in Hlast as [Hin Hid].
        apply Z.eqb_eq in Hid. exists v. by rewrite Hid.
      + intros (row & [= <- <-] & Hin).
        rewrite (lastRow_unique _ rows row); [reflexivity|exact Hin|apply Z.eqb_refl|].
        intros r Hr Heq. apply Z.eqb_eq in Heq.
        by apply (NoDup_map_In_inj TagModel.ID rows). }
  simpl. rewrite !map_fmap, Hperm, <- !map_fmap, map_map. reflexivity.
Qed.

Lemma tag_list_after_initialization_witness :
  snd (getTagHandler (map_to_list (TagCache.tags (loadTags NewTagCache newRows))))
  ≡ₚ [Tag.mk 1 "a"; Tag.mk 2 "b"].
Proof.
  apply (tag_list_after_initialization (tagStoreOf newRows)
           (loadTags NewTagCache newRows) newRows
           (map_to_list (TagCache.tags (loadTags NewTagCache newRows))));
    [reflexivity|reflexivity| |apply Permutation_refl].
  apply (bool_decide_unpack _). vm_compute. exact I.
Defined.

(** * Properties of the reaction handlers *)

Example getReactionsHandler_sample :
  getReactionsHandler sampleReactionStore "3" ""
  = Ok (200, [Reaction.mk 21 "heart" "bob"%string 3 1699999999;
              Reaction.mk 20 "smile" "alice"%string 3 1699999998]).
Proof. vm_compute. reflexivity. Qed.

Example postReactionHandler_sample :
  postReactionHandler sampleReactionStore "3"
  = Ok (201, Reaction.mk 22 "heart" "alice"%string 3 1700000000).
Proof. vm_compute. reflexivity. Qed.

Example fillReactionsResponse_missing_user :
  fillReactionsResponse missingUserReactionStore sampleReactionModels
  = inl (ErrOther "user not found for id 2").
Proof. vm_compute. reflexivity. Qed.

Section ReactionFacts.
Context {TUser TLivestream : Type}.
Implicit Types (db : ReactionStore.t TUser TLivestream).

Lemma indexUsers_lookup (userModels : list UserModel.t) m id :
  (In id (map UserModel.ID userModels) ->
   exists u, indexUsers m userModels !! id = Some u
             /\ In u userModels /\ UserModel.ID u = id)
  /\ (~ In id (map UserModel.ID userModels) -> indexUsers m userModels !! id = m !! id).
Proof.
  revert m. induction userModels as [|u us IH]; intros m; simpl.
  - split; [intros []|reflexivity].
  - destruct (IH (<[UserModel.ID u := u]> m)) as [IHin IHout]. split.
    + intros Hin. destruct (in_dec Z.eq_dec id (map UserModel.ID us)) as [Hus|Hus].
      * destruct (IHin Hus) as (u' & Hu' & Hin' & Hid). eauto 6.
      * destruct Hin as [Hid|Hin]; [|contradiction].
        exists u. rewrite (IHout Hus), <- Hid, lookup_insert_eq. auto.
    + intros Hout. rewrite IHout by tauto.
      apply lookup_insert_ne. tauto.
Qed.

Lemma indexLivestreams_lookup (livestreamModels : list LivestreamModel.t) m id :
  (In id (map LivestreamModel.ID livestreamModels) ->
   exists l, indexLivestreams m livestreamModels !! id = Some l
             /\ In l livestreamModels /\ LivestreamModel.ID l = id)
  /\ (~ In id (map LivestreamModel.ID livestreamModels) ->
      indexLivestreams m livestreamModels !! id = m !! id).
Proof.
  revert m. induction livestreamModels as [|l ls IH]; intros m; simpl.
  - split; [intros []|reflexivity].
  - destruct (IH (<[LivestreamModel.ID l := l]> m)) as [IHin IHout]. split.
    + intros Hin. destruct (in_dec Z.eq_dec id (map LivestreamModel.ID ls)) as [Hls|Hls].
      * destruct (IHin Hls) as (l' & Hl' & Hin' & Hid). eauto 6.
      * destruct Hin as [Hid|Hin]; [|contradiction].
        exists l. rewrite (IHout Hls), <- Hid, lookup_insert_eq. auto.
    + intros Hout. rewrite IHout by tauto.
      apply lookup_insert_ne. tauto.
Qed.

(** What one reply owes to its row. *)
Lemma fillReactionsLoop_Ok db um lm (reactionModels : list ReactionModel.t) acc out :
  fillReactionsLoop db um lm acc reactionModels = inr out ->
  exists reactions,
    out = acc ++ reactions
    /\ Forall2 (fun m r =>
                  Reaction.ID r = ReactionModel.ID m
                  /\ Reaction.EmojiName r = ReactionModel.EmojiName m
                  /\ Reaction.CreatedAt r = ReactionModel.CreatedAt m
                  /\ (exists u, um !! ReactionModel.UserID m = Some u
                                /\ ReactionStore.fillUserResponse db u = inr (Reaction.User r))
                  /\ (exists l, lm !! ReactionModel.LivestreamID m = Some l
                                /\ ReactionStore.fillLivestreamResponse db l
                                   = inr (Reaction.Livestream r)))
               reactionModels reactions.
Proof.
  revert acc. induction reactionModels as [|m rest IH]; intros acc; simpl.
  - intros [= <-]. exists []. split; [by rewrite app_nil_r|constructor].
  - unfold mbind, result_bind.
    destruct (um !! ReactionModel.UserID m) as [u|] eqn:Hu; [|discriminate].
    destruct (ReactionStore.fillUserResponse db u) as [err|user] eqn:Huser; [discriminate|].
    destruct (lm !! ReactionModel.LivestreamID m) as [l|] eqn:Hl; [|discriminate].
    destruct (ReactionStore.fillLivestreamResponse db l) as [err|livestream] eqn:Hlive;
      [discriminate|].
    intros Hrest. destruct (IH _ Hrest) as (reactions & -> & Hall).
    eexists (_ :: reactions). split; [by rewrite <- app_assoc|].
    constructor; [|exact Hall]. simpl. eauto 10.
Qed.

Lemma fillReactionsLoop_missing db um lm (reactionModels : list ReactionModel.t) acc :
  (exists m, In m reactionModels
             /\ (um !! ReactionModel.UserID m = None
                 \/ lm !! ReactionModel.LivestreamID m = None)) ->
  exists err, fillReactionsLoop db um lm acc reactionModels = inl err.
Proof.
  revert acc. induction reactionModels as [|m rest IH]; intros acc (m' & Hin & Hnone);
    [destruct Hin|].
  simpl. unfold mbind, result_bind.
  destruct (um !! ReactionModel.UserID m) as [u|] eqn:Hu; [|eauto].
  destruct (ReactionStore.fillUserResponse db u) as [err|user]; [eauto|].
  destruct (lm !! ReactionModel.LivestreamID m) as [l|] eqn:Hl; [|eauto].
  destruct (ReactionStore.fillLivestreamResponse db l) as [err|livestream]; [eauto|].
  apply IH. destruct Hin as [->|Hin]; [|eauto].
  destruct Hnone; congruence.
Qed.

Lemma fillReactionsLoop_each db um lm (reactionModels : list ReactionModel.t) acc :
  (forall m, In m reactionModels ->
     (exists u, um !! ReactionModel.UserID m = Some u
                /\ ReactionStore.getUser db (ReactionModel.UserID m) = inr u)
     /\ (exists l, lm !! ReactionModel.LivestreamID m = Some l
                   /\ ReactionStore.getLivestream db (ReactionModel.LivestreamID m) = inr l)) ->
  fillReactionsLoop db um lm acc reactionModels
  = match fillEachReaction db reactionModels with
    | inl err => inl err
    | inr reactions => inr (acc ++ reactions)
    end.
Proof.
  revert acc. induction reactionModels as [|m rest IH]; intros acc Hagree; simpl.
  - by rewrite app_nil_r.
  - destruct (Hagree m) as [(u & Hu & Hgetu) (l & Hl & Hgetl)]; [by left|].
    unfold fillReactionResponse, mbind, result_bind. rewrite Hu, Hgetu, Hl, Hgetl.
    destruct (ReactionStore.fillUserResponse db u) as [err|user]; [reflexivity|].
    destruct (ReactionStore.fillLivestreamResponse db l) as [err|livestream];
      [reflexivity|].
    rewrite IH by (intros m' Hm'; apply Hagree; by right).
    destruct (fillEachReaction db rest) as [err|reactions]; [reflexivity|].
    by rewrite <- app_assoc.
Qed.

Lemma fillReactionsResponse_rows db reactionModels reactions :
  fillReactionsResponse db reactionModels = inr reactions ->
  Forall2 (reactionOfRow db) reactionModels reactions.
Proof.
  unfold reactionOfRow.
  unfold fillReactionsResponse.
  destruct (length reactionModels =? 0)%nat eqn:Hlen.
  - intros [= <-]. apply Nat.eqb_eq in Hlen.
    destruct reactionModels; [constructor|discriminate].
  - unfold mbind, result_bind.
    destruct (ReactionStore.selectUsersIn db _) as [err|userModels]; [discriminate|].
    destruct (ReactionStore.selectLivestreamsIn db _) as [err|livestreamModels];
      [discriminate|].
    intros Hloop. apply fillReactionsLoop_Ok in Hloop as (rs & -> & Hall). simpl.
    eapply Forall2_impl; [exact Hall|]. simpl.
    intros m r (Hid & Hemoji & Hcreated & (u & Hu & Hfillu) & (l & Hl & Hfilll)).
    repeat split; try assumption.
    + exists u. split; [|exact Hfillu].
      destruct (in_dec Z.eq_dec (ReactionModel.UserID m) (map UserModel.ID userModels))
        as [Hin|Hout].
      * destruct (proj1 (indexUsers_lookup userModels ∅ _) Hin) as (u' & Hu' & _ & Hid').
        congruence.
      * rewrite (proj2 (indexUsers_lookup userModels ∅ _) Hout), lookup_empty in Hu.
        discriminate.
    + exists l. split; [|exact Hfilll].
      destruct (in_dec Z.eq_dec (ReactionModel.LivestreamID m)
                  (map LivestreamModel.ID livestreamModels)) as [Hin|Hout].
      * destruct (proj1 (indexLivestreams_lookup livestreamModels ∅ _) Hin)
          as (l' & Hl' & _ & Hid'). congruence.
      * rewrite (proj2 (indexLivestreams_lookup livestreamModels ∅ _) Hout), lookup_empty
          in Hl. discriminate.
Qed.


(** X21: the batched fill returns an error whenever the batched read of
    the users, or that of the livestreams, leaves out a row that one of
    the reactions refers to. *)
Theorem fillReactionsResponse_missing_row db reactionModels :
  (forall userModels,
      ReactionStore.selectUsersIn db (map ReactionModel.UserID reactionModels)
      = inr userModels ->
      (exists m, In m reactionModels
                 /\ ~ In (ReactionModel.UserID m) (map UserModel.ID userModels)) ->
      exists err, fillReactionsResponse db reactionModels = inl err)
  /\ (forall livestreamModels,
      ReactionStore.selectLivestreamsIn db (map ReactionModel.LivestreamID reactionModels)
      = inr livestreamModels ->
      (exists m, In m reactionModels
                 /\ ~ In (ReactionModel.LivestreamID m)
                         (map LivestreamModel.ID livestreamModels)) ->
      exists err, fillReactionsResponse db reactionModels = inl err).
Proof.
  split.
  - intros userModels Hselect (m & Hin & Hout). unfold fillReactionsResponse.
    destruct reactionModels as [|m0 rest]; [destruct Hin|].
    simpl length. simpl Nat.eqb. cbv iota. unfold mbind at 1, result_bind at 1.
    rewrite Hselect. unfold mbind at 1, result_bind at 1.
    destruct (ReactionStore.selectLivestreamsIn db _) as [err|livestreamModels]; [eauto|].
    apply fillReactionsLoop_missing. exists m. split; [exact Hin|]. left.
    by rewrite (proj2 (indexUsers_lookup userModels ∅ _) Hout), lookup_empty.
  - intros livestreamModels Hselect (m & Hin & Hout). unfold fillReactionsResponse.
    destruct reactionModels as [|m0 rest]; [destruct Hin|].
    simpl length. simpl Nat.eqb. cbv iota. unfold mbind at 1, result_bind at 1.
    destruct (ReactionStore.selectUsersIn db _) as [err|userModels]; [eauto|].
    unfold mbind at 1, result_bind at 1. rewrite Hselect.
    apply fillReactionsLoop_missing. exists m. split; [exact Hin|]. right.
    by rewrite (proj2 (indexLivestreams_lookup livestreamModels ∅ _) Hout), lookup_empty.
Qed.

(** X22: when the two batched reads return every row that the reactions
    refer to, and each row they return is the row that the read by id
    returns, the batched fill gives what filling the reactions one by
    one gives: the same replies, or the same first error. *)
Theorem fillReactionsResponse_agrees_with_each db reactionModels userModels livestreamModels :
  ReactionStore.selectUsersIn db (map ReactionModel.UserID reactionModels) = inr userModels ->
  ReactionStore.selectLivestreamsIn db (map ReactionModel.LivestreamID reactionModels)
  = inr livestreamModels ->
  (forall u, In u userModels -> ReactionStore.getUser db (UserModel.ID u) = inr u) ->
  (forall l, In l livestreamModels ->
             ReactionStore.getLivestream db (LivestreamModel.ID l) = inr l) ->
  (forall m, In m reactionModels ->
             In (ReactionModel.UserID m) (map UserModel.ID userModels)
             /\ In (ReactionModel.LivestreamID m) (map LivestreamModel.ID livestreamModels)) ->
  fillReactionsResponse db reactionModels = fillEachReaction db reactionModels.
Proof.
  intros Husers Hlives Hgetu Hgetl Hall. unfold fillReactionsResponse.
  destruct (length reactionModels =? 0)%nat eqn:Hlen.
  { apply Nat.eqb_eq in Hlen. destruct reactionModels; [reflexivity|discriminate]. }
  unfold mbind at 1, result_bind at 1. rewrite Husers.
  unfold mbind at 1, result_bind at 1. rewrite Hlives.
  rewrite fillReactionsLoop_each.
  - by destruct (fillEachReaction db reactionModels).
  - intros m Hm. destruct (Hall m Hm) as [Hu Hl]. split.
    + destruct (proj1 (indexUsers_lookup userModels ∅ _) Hu) as (u & Hlook & Hin & Hid).
      exists u. split; [exact Hlook|]. rewrite <- Hid. by apply Hgetu.
    + destruct (proj1 (indexLivestreams_lookup livestreamModels ∅ _) Hl)
        as (l & Hlook & Hin & Hid).
      exists l. split; [exact Hlook|]. rewrite <- Hid. by apply Hgetl.
Qed.


(** X24: when the handler of GET replies, the status is 200 and the
    reply lists one reaction per row that the SELECT for the parsed
    livestream id returned, in the order of the rows. *)
Theorem getReactionsHandler_reply db livestream_id limit status reactions :
  getReactionsHandler db livestream_id limit = Ok (status, reactions) ->
  status = StatusOK
  /\ exists livestreamID limitClause rows,
      ReactionStore.Atoi db livestream_id = inr livestreamID
      /\ (limit = ""%string -> limitClause = None)
      /\ ReactionStore.selectReactions db livestreamID limitClause = inr rows
      /\ Forall2 (reactionOfRow db) rows reactions.
Proof.
  unfold getReactionsHandler.
  unfold mbind, outcome_bind, orInternalError, NewHTTPError. intros H.
  destruct (ReactionStore.verifyUserSession db); [discriminate|].
  destruct (ReactionStore.Atoi db livestream_id) as [err|livestreamID] eqn:Hid;
    [discriminate|].
  destruct (ReactionStore.BeginTxx db); [discriminate|].
  assert (Hlimit : exists limitClause,
             (limit = ""%string -> limitClause = None)
             /\ (if String.eqb limit ""
                 then Ok None
                 else match ReactionStore.Atoi db limit with
                      | inl _ => Fail (HTTPError.mk StatusBadRequest
                                         "limit query parameter must be integer")
                      | inr n => Ok (Some n)
                      end) = Ok limitClause).
  { destruct (String.eqb_spec limit "") as [->|Hne]; [by exists None|].
    destruct (ReactionStore.Atoi db limit) as [err|n]; [discriminate|].
    exists (Some n). split; [intros; contradiction|reflexivity]. }
  destruct Hlimit as (limitClause & Hnone & Hlimit). rewrite Hlimit in H.
  destruct (ReactionStore.selectReactions db livestreamID limitClause) as [err|rows]
    eqn:Hrows; [discriminate|].
  destruct (fillReactionsResponse db rows) as [err|rs] eqn:Hfill; [discriminate|].
  destruct (ReactionStore.Commit db); [discriminate|].
  injection H as <- <-. split; [reflexivity|].
  exists livestreamID, limitClause, rows.
  repeat split; try assumption. by apply fillReactionsResponse_rows.
Qed.


(** X26: when the handler of POST replies, the status is 201 and the
    reaction carries the id that the store assigned to the inserted
    row, the emoji name of the request and the time of the handler. *)
Theorem postReactionHandler_reply db livestream_id status reaction :
  postReactionHandler db livestream_id = Ok (status, reaction) ->
  status = StatusCreated
  /\ exists livestreamID req reactionID,
      ReactionStore.Atoi db livestream_id = inr livestreamID
      /\ ReactionStore.decodeBody db = inr (Some req)
      /\ ReactionStore.insertReaction db
           (ReactionModel.mk 0 (PostReactionRequest.EmojiName req)
              (ReactionStore.sessionUserID db) livestreamID (ReactionStore.now db))
         = inr (inr reactionID)
      /\ Reaction.ID reaction = reactionID
      /\ Reaction.EmojiName reaction = PostReactionRequest.EmojiName req
      /\ Reaction.CreatedAt reaction = ReactionStore.now db.
Proof.
  unfold postReactionHandler.
  unfold mbind, outcome_bind, orInternalError, NewHTTPError. intros H.
  destruct (ReactionStore.Atoi db livestream_id) as [err|livestreamID] eqn:Hid;
    [discriminate|].
  destruct (ReactionStore.verifyUserSession db); [discriminate|].
  destruct (ReactionStore.decodeBody db) as [err|[req|]] eqn:Hreq; [discriminate| |].
  - destruct (ReactionStore.BeginTxx db); [discriminate|].
    destruct (ReactionStore.insertReaction db _) as [err|[err|reactionID]] eqn:Hinsert;
      [discriminate|discriminate|].
    simpl in H.
    destruct (fillReactionResponse db _) as [err|r] eqn:Hfill; [discriminate|].
    destruct (ReactionStore.Commit db); [discriminate|].
    injection H as <- <-. split; [reflexivity|].
    exists livestreamID, req, reactionID.
    unfold fillReactionResponse, mbind, result_bind in Hfill.
    repeat case_match; try discriminate.
    injection Hfill as <-. simpl. repeat split; (reflexivity || assumption).
  - destruct (ReactionStore.BeginTxx db); discriminate.
Qed.
End ReactionFacts.

(** ** The reaction properties at the sample stores *)


Lemma fillReactionsResponse_missing_row_witness :
  exists err, fillReactionsResponse missingUserReactionStore sampleReactionModels = inl err.
Proof.
  apply (proj1 (fillReactionsResponse_missing_row missingUserReactionStore
                  sampleReactionModels) [UserModel.mk 1 "alice"] eq_refl).
  exists (ReactionModel.mk 21 "heart" 2 3 1699999999). split; [member|].
  simpl. intros [H|[]]. discriminate H.
Defined.

Lemma fillReactionsResponse_agrees_with_each_witness :
  fillReactionsResponse sampleReactionStore sampleReactionModels
  = fillEachReaction sampleReactionStore sampleReactionModels.
Proof.
  apply (fillReactionsResponse_agrees_with_each sampleReactionStore sampleReactionModels
           [UserModel.mk 1 "alice"; UserModel.mk 2 "bob"] [LivestreamModel.mk 3]
           eq_refl eq_refl).
  - intros u [<-|[<-|[]]]; reflexivity.
  - intros l [<-|[]]; reflexivity.
  - intros m [<-|[<-|[]]]; simpl; tauto.
Defined.

Lemma getReactionsHandler_reply_witness :
  200 = StatusOK
  /\ exists livestreamID limitClause rows,
      ReactionStore.Atoi sampleReactionStore "3" = inr livestreamID
      /\ (""%string = ""%string -> limitClause = None)
      /\ ReactionStore.selectReactions sampleReactionStore livestreamID limitClause = inr rows
      /\ Forall2 (reactionOfRow sampleReactionStore) rows
           [Reaction.mk 21 "heart" "bob"%string 3 1699999999;
            Reaction.mk 20 "smile" "alice"%string 3 1699999998].
Proof.
  apply (getReactionsHandler_reply sampleReactionStore "3"%string ""%string 200).
  vm_compute. reflexivity.
Defined.


Lemma postReactionHandler_reply_witness :
  201 = StatusCreated
  /\ exists livestreamID req reactionID,
      ReactionStore.Atoi sampleReactionStore "3" = inr livestreamID
      /\ ReactionStore.decodeBody sampleReactionStore = inr (Some req)
      /\ ReactionStore.insertReaction sampleReactionStore
           (ReactionModel.mk 0 (PostReactionRequest.EmojiName req)
              (ReactionStore.sessionUserID sampleReactionStore) livestreamID
              (ReactionStore.now sampleReactionStore))
         = inr (inr reactionID)
      /\ Reaction.ID (Reaction.mk 22 "heart" "alice"%string 3 1700000000) = reactionID
      /\ Reaction.EmojiName (Reaction.mk 22 "heart" "alice"%string 3 1700000000)
         = PostReactionRequest.EmojiName req
      /\ Reaction.CreatedAt (Reaction.mk 22 "heart" "alice"%string 3 1700000000)
         = ReactionStore.now sampleReactionStore.
Proof.
  apply (postReactionHandler_reply sampleReactionStore "3"%string 201
           (Reaction.mk 22 "heart" "alice"%string 3 1700000000)).
  vm_compute. reflexivity.
Defined.
